(** * AxiosService: the request-lifecycle layer of ax-next

    A shallow embedding of [src/index.js]: the [AxiosService] class that wraps
    an axios instance with a response cache, a registry of pending requests,
    a token manager and a central error handler.

    The class is stateful and talks to two external parties, the HTTP
    transport behind [customAxios] and the refresh endpoint behind the global
    [axios.post].  Both are modelled as an environment that answers each
    exchange; the service itself is a state monad over the instance fields,
    the clock, the cancel sources handed out so far and a log of the effects
    that are visible from outside (console lines, transport dispatches,
    refresh exchanges, cache and registry operations).

    What the model takes from axios and node-cache, which are not part of
    the repository: a status in [200, 300) fulfils the promise of a request
    and any other status rejects it (the default [validateStatus]); request
    interceptors run in the reverse order of their registration; the keys a
    caller puts into the per-request configuration reach the interceptors;
    a cache entry is visible while its time to live has not passed.

    What is left out: [setupGlobalErrorHandling], which only installs two
    logging listeners on [window], and the options [retry] and [retryDelay],
    which the class stores and never reads.

    Tasks are cooperative, as in JavaScript: a method runs without
    interruption up to an [await] on an exchange.  The verb methods are
    modelled run to completion against the environment, one call at a time;
    [getToken] is in addition split at its [await], so that several callers
    can be interleaved. *)

From Stdlib Require Import Ascii String.
From stdpp Require Import base option list strings pretty gmap.

Set Warnings "-register-all".
Open Scope string_scope.
Open Scope Z_scope.

(** ** JavaScript values that cross the wire *)

(** JSON documents.  Numbers are restricted to integers: nothing proved
    below depends on fractions.  Object members keep their insertion order, as
    [JSON.stringify] prints them in that order. *)
Inductive JSON : Type :=
| JNull
| JBool (b : bool)
| JNum (n : Z)
| JStr (s : string)
| JArr (items : list JSON)
| JObj (members : list (string * JSON)).

(** [if (v)] on a JSON value: [null], [false], [0] and [''] are falsy,
    every object and array (even an empty one) is truthy. *)
Definition truthy (v : JSON) : bool :=
  match v with
  | JNull => false
  | JBool b => b
  | JNum n => negb (n =? 0)
  | JStr s => negb (String.eqb s "")
  | JArr _ => true
  | JObj _ => true
  end.

(** [if (v)] on a value that may be [undefined]. *)
Definition truthy_opt (v : option JSON) : bool :=
  match v with
  | Some j => truthy j
  | None => false
  end.

(** Quoting of a string literal: the double quote (code 34) and the
    backslash (code 92) are escaped with a backslash. *)
Definition dquote : ascii := Ascii.ascii_of_nat 34.
Definition backslash : ascii := Ascii.ascii_of_nat 92.

Fixpoint escape (s : string) : string :=
  match s with
  | EmptyString => EmptyString
  | String c r =>
      if (Ascii.eqb c dquote || Ascii.eqb c backslash)%bool
      then String backslash (String c (escape r))
      else String c (escape r)
  end.

Definition quote (s : string) : string :=
  String dquote (escape s) +:+ String dquote EmptyString.

(** [JSON.stringify] without indentation. *)
Fixpoint stringify (j : JSON) : string :=
  match j with
  | JNull => "null"
  | JBool true => "true"
  | JBool false => "false"
  | JNum n => pretty n
  | JStr s => quote s
  | JArr items =>
      let fix elements (l : list JSON) : string :=
        match l with
        | [] => ""
        | [x] => stringify x
        | x :: r => stringify x +:+ "," +:+ elements r
        end in
      "[" +:+ elements items +:+ "]"
  | JObj members =>
      let fix fields (l : list (string * JSON)) : string :=
        match l with
        | [] => ""
        | [(k, x)] => quote k +:+ ":" +:+ stringify x
        | (k, x) :: r => quote k +:+ ":" +:+ stringify x +:+ "," +:+ fields r
        end in
      "{" +:+ fields members +:+ "}"
  end.

(** [s.toUpperCase()] on ASCII letters. *)
Definition upper_char (c : ascii) : ascii :=
  let n := Ascii.nat_of_ascii c in
  if ((97 <=? n)%nat && (n <=? 122)%nat)%bool
  then Ascii.ascii_of_nat (n - 32) else c.

Fixpoint toUpperCase (s : string) : string :=
  match s with
  | EmptyString => EmptyString
  | String c r => String (upper_char c) (toUpperCase r)
  end.

(** ** Requests, responses and errors, as axios hands them around *)

(** [config.metadata], written by the timing interceptors. *)
Record Metadata := {
  startTime : Z;
  endTime : option Z;
  duration : option Z;
}.

(** The request configuration object.  [cancelToken] names the cancel source
    the token belongs to; [cancelPrevious] is the per-request opt-out of the
    duplicate cancellation ([None] when the caller left it out). *)
Record RequestConfig := {
  method : string;
  url : string;
  params : option JSON;
  data : option JSON;
  headers : list (string * string);
  cancelPrevious : option bool;
  cancelToken : option nat;
  metadata : option Metadata;
}.

Definition set_cancelToken (source : nat) (c : RequestConfig) : RequestConfig :=
  {| method := method c; url := url c; params := params c; data := data c;
     headers := headers c; cancelPrevious := cancelPrevious c;
     cancelToken := Some source; metadata := metadata c |}.

Definition set_metadata (m : Metadata) (c : RequestConfig) : RequestConfig :=
  {| method := method c; url := url c; params := params c; data := data c;
     headers := headers c; cancelPrevious := cancelPrevious c;
     cancelToken := cancelToken c; metadata := Some m |}.

(** The per-call [config] argument of the verb methods: the members of it
    that the service or its interceptors look at. *)
Record CallConfig := {
  call_params : option JSON;
  call_headers : list (string * string);
  call_cancelPrevious : option bool;
}.

(** The default [config = {}]. *)
Definition noConfig : CallConfig :=
  {| call_params := None; call_headers := []; call_cancelPrevious := None |}.

(** The response envelope: status, payload and the request it answers. *)
Record Response := {
  status : Z;
  resp_data : JSON;
  resp_config : RequestConfig;
}.

(** An axios error: [error.response] is set when the server answered,
    [error.request] when the request left but no answer came back. *)
Record AxiosError := {
  err_response : option Response;
  err_request : bool;
  err_message : string;
  err_config : RequestConfig;
}.

(** What a verb method can resolve with. *)
Inductive JsValue : Type :=
| Payload (d : JSON)
| Envelope (r : Response).

(** How a promise settles. *)
Inductive Outcome (A : Type) : Type :=
| Resolved (v : A)
| Rejected (e : AxiosError).
Arguments Resolved {A} v.
Arguments Rejected {A} e.

(** ** The environment *)

(** What the transport does with one dispatched request. *)
Inductive TransportReply : Type :=
| Responded (code : Z) (body : JSON)
| NoResponse (message : string)
| Canceled (message : string).

(** What the refresh endpoint does with one exchange.  A granted exchange
    carries the body the endpoint contract promises,
    [{token: string, expiresIn: number}]. *)
Inductive RefreshReply : Type :=
| Granted (newToken : string) (expiresIn : Z)
| Denied (code : Z) (body : JSON)
| Unreachable (message : string).

(** The environment answers the n-th dispatch and the n-th refresh exchange,
    each after some milliseconds. *)
Record Env := {
  transport : nat -> RequestConfig -> Z * TransportReply;
  refreshEndpoint : nat -> Z * RefreshReply;
}.

(** ** The service *)

Module AxiosService.

(** The options of the constructor, after the merge over the defaults. *)
Record Config := {
  baseURL : string;
  timeout : Z;
  default_headers : list (string * string);
  retry : bool;
  retryDelay : Z;
  cacheEnabled : bool;
  cacheTTL : Z;
  cacheCheckPeriod : Z;
  globalErrorHandling : bool;
  performanceMonitoring : bool;
  requestCancellation : bool;
  refreshTokenURL : string;
  tokenRefreshEnabled : bool;
  tokenRefreshThreshold : Z;
}.

Definition defaultConfig : Config := {|
  baseURL := "https://api.example.com";
  timeout := 10000;
  default_headers := [("X-Custom-Header", "foobar")];
  retry := false;
  retryDelay := 1000;
  cacheEnabled := true;
  cacheTTL := 100;
  cacheCheckPeriod := 120;
  globalErrorHandling := true;
  performanceMonitoring := true;
  requestCancellation := true;
  refreshTokenURL := "https://api.example.com/refresh-token";
  tokenRefreshEnabled := true;
  tokenRefreshThreshold := 300;
|}.

(** One entry of the node-cache store.  The store is an external package;
    it is modelled as the data model of the specification describes it: an
    entry carries its value, the time it was inserted (milliseconds) and its
    time to live (seconds), and is visible only while
    [now < insertedAt + ttl]. *)
Record CacheEntry := {
  entry_value : JSON;
  insertedAt : Z;
  ttl : Z;
}.

Definition visible (t : Z) (e : CacheEntry) : bool :=
  t <? insertedAt e + ttl e * 1000.

(** The effects of the service that can be observed from outside, in the
    order they happen. *)
Inductive Event : Type :=
| EvCacheGet (key : string)
| EvCacheSet (key : string) (v : JSON)
| EvCancel (requestId : string) (source : nat)
| EvTrack (requestId : string) (source : nat)
| EvDispatch (request : RequestConfig)
| EvRefreshPost (endpoint : string)
| EvConsoleLog (line : string)
| EvConsoleError (line : string).

(** The instance fields of the class together with the part of the world the
    class reads and writes: the clock ([new Date()], in milliseconds), the
    cancel sources created so far and the ones already cancelled, and the
    log of events, newest first. *)
Record State := {
  options : Config;
  cache : option (gmap string CacheEntry);
  pendingRequests : gmap string nat;
  token : option string;
  tokenExpiration : option Z;
  now : Z;
  nextSource : nat;
  canceled : list nat;
  events : list Event;
}.

Definition set_cache (c : option (gmap string CacheEntry)) (st : State) : State :=
  {| options := options st; cache := c; pendingRequests := pendingRequests st;
     token := token st; tokenExpiration := tokenExpiration st; now := now st;
     nextSource := nextSource st; canceled := canceled st; events := events st |}.

Definition set_pendingRequests (p : gmap string nat) (st : State) : State :=
  {| options := options st; cache := cache st; pendingRequests := p;
     token := token st; tokenExpiration := tokenExpiration st; now := now st;
     nextSource := nextSource st; canceled := canceled st; events := events st |}.

Definition set_token (t : option string) (st : State) : State :=
  {| options := options st; cache := cache st; pendingRequests := pendingRequests st;
     token := t; tokenExpiration := tokenExpiration st; now := now st;
     nextSource := nextSource st; canceled := canceled st; events := events st |}.

Definition set_tokenExpiration (t : option Z) (st : State) : State :=
  {| options := options st; cache := cache st; pendingRequests := pendingRequests st;
     token := token st; tokenExpiration := t; now := now st;
     nextSource := nextSource st; canceled := canceled st; events := events st |}.

Definition set_now (t : Z) (st : State) : State :=
  {| options := options st; cache := cache st; pendingRequests := pendingRequests st;
     token := token st; tokenExpiration := tokenExpiration st; now := t;
     nextSource := nextSource st; canceled := canceled st; events := events st |}.

Definition set_nextSource (n : nat) (st : State) : State :=
  {| options := options st; cache := cache st; pendingRequests := pendingRequests st;
     token := token st; tokenExpiration := tokenExpiration st; now := now st;
     nextSource := n; canceled := canceled st; events := events st |}.

Definition set_canceled (l : list nat) (st : State) : State :=
  {| options := options st; cache := cache st; pendingRequests := pendingRequests st;
     token := token st; tokenExpiration := tokenExpiration st; now := now st;
     nextSource := nextSource st; canceled := l; events := events st |}.

Definition set_events (l : list Event) (st : State) : State :=
  {| options := options st; cache := cache st; pendingRequests := pendingRequests st;
     token := token st; tokenExpiration := tokenExpiration st; now := now st;
     nextSource := nextSource st; canceled := canceled st; events := l |}.

(** *** The state monad of the instance *)

Definition M (A : Type) : Type := State -> A * State.

Definition ret {A} (a : A) : M A := fun st => (a, st).

Definition bind {A B} (m : M A) (k : A -> M B) : M B :=
  fun st => let (a, st') := m st in k a st'.

Declare Scope service_scope.
Delimit Scope service_scope with service.
Notation "'let*' x ':=' m 'in' k" := (bind m (fun x => k))
  (at level 10, x name, m at level 100, k at level 200) : service_scope.
Notation "m ;; k" := (bind m (fun _ => k))
  (at level 100, k at level 200, right associativity) : service_scope.
Open Scope service_scope.

Definition gets {A} (f : State -> A) : M A := fun st => (f st, st).
Definition modify (f : State -> State) : M unit := fun st => (tt, f st).
Definition emit (e : Event) : M unit :=
  modify (fun st => set_events (e :: events st) st).
Definition console_log (line : string) : M unit := emit (EvConsoleLog line).
Definition console_error (line : string) : M unit := emit (EvConsoleError line).

(** Time passes while a task is suspended on an exchange. *)
Definition elapse (ms : Z) : M unit :=
  modify (fun st => set_now (now st + ms) st).

(** The events in the order they happened. *)
Definition history (st : State) : list Event := rev (events st).

Definition is_dispatch (e : Event) : bool :=
  match e with EvDispatch _ => true | _ => false end.
Definition is_refresh (e : Event) : bool :=
  match e with EvRefreshPost _ => true | _ => false end.

(** How often the transport, respectively the refresh endpoint, has been
    invoked so far. *)
Definition dispatches (st : State) : nat := length (List.filter is_dispatch (events st)).
Definition refreshes (st : State) : nat := length (List.filter is_refresh (events st)).

Section Methods.

Variable env : Env.

(** *** The response cache *)

(** [this.cache ? this.cache.get(cacheKey) : null].  A miss is [undefined]
    ([None]); without a cache the expression is [null]. *)
Definition cache_get (key : string) : M (option JSON) :=
  let* c := gets cache in
  match c with
  | Some store =>
      emit (EvCacheGet key);;
      let* t := gets now in
      ret (match store !! key with
           | Some e => if visible t e then Some (entry_value e) else None
           | None => None
           end)
  | None => ret (Some JNull)
  end.

(** [if (this.cache) this.cache.set(cacheKey, value)], with the standard
    time to live of the store. *)
Definition cache_set (key : string) (v : JSON) : M unit :=
  let* c := gets cache in
  match c with
  | Some store =>
      emit (EvCacheSet key v);;
      let* t := gets now in
      let* opts := gets options in
      modify (set_cache (Some (<[key := {| entry_value := v; insertedAt := t;
                                           ttl := cacheTTL opts |}]> store)))
  | None => ret tt
  end.

(** *** The registry of pending requests *)

(** [config.params || {}] *)
Definition params_or_empty (p : option JSON) : JSON :=
  match p with
  | Some j => if truthy j then j else JObj []
  | None => JObj []
  end.

Definition getRequestId (config : RequestConfig) : string :=
  toUpperCase (method config) +:+ url config +:+ stringify (params_or_empty (params config)).

(** [axios.CancelToken.source()] *)
Definition newCancelSource : M nat :=
  let* n := gets nextSource in
  modify (set_nextSource (S n));;
  ret n.

(** [cancelTokenSource.cancel(reason)] *)
Definition cancel (requestId : string) (source : nat) : M unit :=
  emit (EvCancel requestId source);;
  modify (fun st => set_canceled (source :: canceled st) st).

Definition cancelPendingRequests (config : RequestConfig) : M unit :=
  let requestId := getRequestId config in
  let* pending := gets pendingRequests in
  match pending !! requestId with
  | Some cancelTokenSource =>
      cancel requestId cancelTokenSource;;
      modify (fun st => set_pendingRequests (delete requestId (pendingRequests st)) st)
  | None => ret tt
  end.

Definition trackRequest (config : RequestConfig) (cancelTokenSource : nat) : M unit :=
  let requestId := getRequestId config in
  emit (EvTrack requestId cancelTokenSource);;
  modify (fun st => set_pendingRequests (<[requestId := cancelTokenSource]> (pendingRequests st)) st).

(** *** The interceptors *)

(** The request interceptor of [setupPerformanceMonitoring]. *)
Definition stampStartTime (config : RequestConfig) : M RequestConfig :=
  let* t := gets now in
  ret (set_metadata {| startTime := t; endTime := None; duration := None |} config).

(** The response interceptor of [setupPerformanceMonitoring].  Without
    metadata the duration is computed on a fresh empty object and is NaN. *)
Definition logDuration (response : Response) : M Response :=
  let* t := gets now in
  match metadata (resp_config response) with
  | Some m =>
      let d := t - startTime m in
      console_log ("Request duration: " +:+ pretty d +:+ "ms");;
      ret {| status := status response; resp_data := resp_data response;
             resp_config := set_metadata {| startTime := startTime m; endTime := Some t;
                                            duration := Some d |} (resp_config response) |}
  | None =>
      console_log "Request duration: NaNms";;
      ret response
  end.

(** The request interceptor of [setupRequestCancellation]. *)
Definition attachCancelToken (config : RequestConfig) : M RequestConfig :=
  let* cancelToken := newCancelSource in
  let config := set_cancelToken cancelToken config in
  (match cancelPrevious config with
   | Some false => ret tt
   | _ => cancelPendingRequests config
   end);;
  trackRequest config cancelToken;;
  ret config.

(** The pre-send stage.  The constructor registers the timing interceptor
    first and the cancellation interceptor second; axios runs request
    interceptors in the reverse order of their registration. *)
Definition requestInterceptors (config : RequestConfig) : M RequestConfig :=
  let* opts := gets options in
  let* config := (if requestCancellation opts then attachCancelToken config else ret config) in
  let* config := (if performanceMonitoring opts then stampStartTime config else ret config) in
  ret config.

(** The post-receive stage on a fulfilled exchange; the rejection handlers
    of both setups pass the error on unchanged. *)
Definition responseInterceptors (response : Response) : M Response :=
  let* opts := gets options in
  if performanceMonitoring opts then logDuration response else ret response.

(** *** The axios instance *)

(** How axios settles an exchange: a status in [200, 300) fulfils, any other
    status rejects with an error that carries the response; a request
    without an answer rejects with an error that only carries the request;
    a cancelled one rejects with a bare message. *)
Definition settle (config : RequestConfig) (reply : TransportReply) : Outcome Response :=
  match reply with
  | Responded code body =>
      let response := {| status := code; resp_data := body; resp_config := config |} in
      if ((200 <=? code) && (code <? 300))%bool then Resolved response
      else Rejected {| err_response := Some response; err_request := true;
                       err_message := "Request failed with status code " +:+ pretty code;
                       err_config := config |}
  | NoResponse message =>
      Rejected {| err_response := None; err_request := true;
                  err_message := message; err_config := config |}
  | Canceled message =>
      Rejected {| err_response := None; err_request := false;
                  err_message := message; err_config := config |}
  end.

(** [this.customAxios.request(config)] up to the point where the task is
    suspended: the pre-send stage and the dispatch to the transport.  The
    result is the number of the dispatch and the request as dispatched. *)
Definition customAxios_request_issue (config : RequestConfig) : M (nat * RequestConfig) :=
  let* config := requestInterceptors config in
  let* n := gets dispatches in
  emit (EvDispatch config);;
  ret (n, config).

(** [this.customAxios.request(config)] from the answer of the transport on:
    axios settles the exchange and runs the post-receive stage. *)
Definition customAxios_request_resume (config : RequestConfig)
    (answer : Z * TransportReply) : M (Outcome Response) :=
  let (ms, reply) := answer in
  elapse ms;;
  match settle config reply with
  | Resolved response =>
      let* response := responseInterceptors response in
      ret (Resolved response)
  | Rejected error => ret (Rejected error)
  end.

(** [this.customAxios.request(config)], answered by the environment. *)
Definition customAxios_request (config : RequestConfig) : M (Outcome Response) :=
  let* issued := customAxios_request_issue config in
  customAxios_request_resume issued.2 (transport env issued.1 issued.2).

(** The configuration a verb method of [customAxios] builds from its
    arguments and the defaults of the instance. *)
Definition mkRequest (opts : Config) (m u : string) (p d : option JSON)
    (config : CallConfig) : RequestConfig :=
  {| method := m; url := u; params := p; data := d;
     headers := default_headers opts ++ call_headers config;
     cancelPrevious := call_cancelPrevious config;
     cancelToken := None; metadata := None |}.

(** *** The token manager *)

(** The request of the refresh exchange, sent with the global axios. *)
Definition refreshRequest (opts : Config) : RequestConfig :=
  {| method := "post"; url := refreshTokenURL opts; params := None;
     data := Some (JObj [("refreshToken", JStr "your-refresh-token")]);
     headers := []; cancelPrevious := None; cancelToken := None; metadata := None |}.

(** The errors the global axios rejects a failed refresh exchange with:
    the endpoint answered outside [200, 300), or it did not answer. *)
Definition deniedError (opts : Config) (code : Z) (body : JSON) : AxiosError :=
  {| err_response := Some {| status := code; resp_data := body;
                             resp_config := refreshRequest opts |};
     err_request := true;
     err_message := "Request failed with status code " +:+ pretty code;
     err_config := refreshRequest opts |}.

Definition unreachableError (opts : Config) (message : string) : AxiosError :=
  {| err_response := None; err_request := true;
     err_message := message; err_config := refreshRequest opts |}.

(** [refreshToken] up to its [await]: the exchange is issued. *)
Definition refreshToken_issue : M nat :=
  let* opts := gets options in
  let* n := gets refreshes in
  emit (EvRefreshPost (refreshTokenURL opts));;
  ret n.

(** [refreshToken] from its [await] on: the exchange has been answered. *)
Definition refreshToken_resume (answer : Z * RefreshReply) : M (Outcome unit) :=
  let (ms, reply) := answer in
  elapse ms;;
  let* opts := gets options in
  match reply with
  | Granted newToken expiresIn =>
      modify (set_token (Some newToken));;
      let* t := gets now in
      modify (set_tokenExpiration (Some (t + expiresIn * 1000)));;
      ret (Resolved tt)
  | Denied code body =>
      console_error "Failed to refresh token:";;
      ret (Rejected (deniedError opts code body))
  | Unreachable message =>
      console_error "Failed to refresh token:";;
      ret (Rejected (unreachableError opts message))
  end.

Definition refreshToken : M (Outcome unit) :=
  let* n := refreshToken_issue in
  refreshToken_resume (refreshEndpoint env n).

Definition isTokenExpired : M bool :=
  let* expiration := gets tokenExpiration in
  let* t := gets now in
  ret (match expiration with
       | None => true
       | Some e => e <=? t
       end).

(** [!this.token]: no token, or the empty string. *)
Definition noToken (t : option string) : bool :=
  match t with
  | None => true
  | Some s => String.eqb s ""
  end.

(** [!this.token || this.isTokenExpired()] *)
Definition tokenUnusable : M bool :=
  let* t := gets token in
  if noToken t then ret true else isTokenExpired.

Definition getToken : M (Outcome (option string)) :=
  let* stale := tokenUnusable in
  if stale then
    let* r := refreshToken in
    match r with
    | Resolved _ => let* t := gets token in ret (Resolved t)
    | Rejected e => ret (Rejected e)
    end
  else
    let* t := gets token in ret (Resolved t).

(** *** Success and error handling *)

Definition handleSuccess (response : Response) : JsValue :=
  Payload (resp_data response).

Definition handleError (error : AxiosError) : M (Outcome JsValue) :=
  let* opts := gets options in
  match err_response error with
  | Some response =>
      if ((status response =? 401) && tokenRefreshEnabled opts)%bool then
        console_error "Unauthorized, attempting to refresh token";;
        let* refreshed := refreshToken in
        match refreshed with
        | Resolved _ =>
            let originalRequest := err_config error in
            let* retried := customAxios_request originalRequest in
            match retried with
            | Resolved response => ret (Resolved (Envelope response))
            | Rejected refreshError =>
                console_error "Failed to refresh token:";;
                ret (Rejected refreshError)
            end
        | Rejected refreshError =>
            console_error "Failed to refresh token:";;
            ret (Rejected refreshError)
        end
      else if status response =? 404 then
        console_error "Resource not found:";;
        ret (Rejected error)
      else
        console_error "Error data:";;
        console_error "Error status:";;
        ret (Rejected error)
  | None =>
      if err_request error then
        console_error "Error request:";;
        ret (Rejected error)
      else
        console_error "Error message:";;
        ret (Rejected error)
  end.

(** *** The verb methods *)

(** The key of a read request in the response cache,
    [`${url}_${JSON.stringify(params)}`]. *)
Definition cacheKeyOf (url : string) (params : JSON) : string :=
  url +:+ "_" +:+ stringify params.

(** The [try] block of [get], entered when the cache has no truthy value
    for the key. *)
Definition get_fetch (url : string) (params : JSON) (config : CallConfig)
    : M (Outcome JsValue) :=
  let* opts := gets options in
  let* r := customAxios_request (mkRequest opts "get" url (Some params) None config) in
  match r with
  | Resolved response =>
      cache_set (cacheKeyOf url params) (resp_data response);;
      ret (Resolved (handleSuccess response))
  | Rejected error => handleError error
  end.

Definition get (url : string) (params : option JSON) (config : CallConfig)
    : M (Outcome JsValue) :=
  let params := default (JObj []) params in
  let cacheKey := cacheKeyOf url params in
  let* cachedResponse := cache_get cacheKey in
  match cachedResponse with
  | Some v => if truthy v then ret (Resolved (Payload v)) else get_fetch url params config
  | None => get_fetch url params config
  end.

Definition post (url : string) (data : option JSON) (config : CallConfig)
    : M (Outcome JsValue) :=
  let* opts := gets options in
  let* r := customAxios_request (mkRequest opts "post" url (call_params config) data config) in
  match r with
  | Resolved response => ret (Resolved (handleSuccess response))
  | Rejected error => handleError error
  end.

Definition put (url : string) (data : option JSON) (config : CallConfig)
    : M (Outcome JsValue) :=
  let* opts := gets options in
  let* r := customAxios_request (mkRequest opts "put" url (call_params config) data config) in
  match r with
  | Resolved response => ret (Resolved (handleSuccess response))
  | Rejected error => handleError error
  end.

Definition delete (url : string) (config : CallConfig) : M (Outcome JsValue) :=
  let* opts := gets options in
  let* r := customAxios_request (mkRequest opts "delete" url (call_params config) None config) in
  match r with
  | Resolved response => ret (Resolved (handleSuccess response))
  | Rejected error => handleError error
  end.

(** *** Logically concurrent callers of [getToken]

    Tasks are cooperative: a task runs until it awaits an exchange and is
    resumed when that exchange is answered.  [getToken] has one such point,
    the refresh exchange inside [refreshToken]. *)

Inductive TokenTask : Type :=
| Awaiting (exchange : nat)
| Settled (o : Outcome (option string)).

(** [getToken] up to the [await] inside [refreshToken]. *)
Definition getToken_start : M TokenTask :=
  let* stale := tokenUnusable in
  if stale then
    let* n := refreshToken_issue in ret (Awaiting n)
  else
    let* t := gets token in ret (Settled (Resolved t)).

(** [getToken] once its refresh exchange has been answered. *)
Definition getToken_resume (answer : Z * RefreshReply) : M (Outcome (option string)) :=
  let* r := refreshToken_resume answer in
  match r with
  | Resolved _ => let* t := gets token in ret (Resolved t)
  | Rejected e => ret (Rejected e)
  end.

(** What the scheduler can do: let a new caller invoke [getToken()], or
    deliver the answer of its exchange to the i-th caller. *)
Inductive Action : Type :=
| Call
| Answer (i : nat).

Definition step (p : list TokenTask * State) (a : Action) : list TokenTask * State :=
  let (tasks, st) := p in
  match a with
  | Call =>
      let (t, st') := getToken_start st in ((tasks ++ [t])%list, st')
  | Answer i =>
      match tasks !! i with
      | Some (Awaiting n) =>
          let (o, st') := getToken_resume (refreshEndpoint env n) st in
          (<[i := Settled o]> tasks, st')
      | _ => (tasks, st)
      end
  end.

Definition schedule (acts : list Action) (st : State) : list TokenTask * State :=
  fold_left step acts ([], st).

End Methods.

(** *** The constructor *)

(** The instance [new AxiosService(config)] creates at time [t], with no
    event logged yet. *)
Definition createInstance (config : Config) (t : Z) : State :=
  {| options := config;
     cache := if cacheEnabled config then Some ∅ else None;
     pendingRequests := ∅;
     token := None;
     tokenExpiration := None;
     now := t;
     nextSource := 0%nat;
     canceled := [];
     events := [] |}.

(** The [config] argument of the constructor: each option is given or left
    out (a key that is present with the value [undefined] is not
    modelled). *)
Record Overrides := {
  given_baseURL : option string;
  given_timeout : option Z;
  given_headers : option (list (string * string));
  given_retry : option bool;
  given_retryDelay : option Z;
  given_cacheEnabled : option bool;
  given_cacheTTL : option Z;
  given_cacheCheckPeriod : option Z;
  given_globalErrorHandling : option bool;
  given_performanceMonitoring : option bool;
  given_requestCancellation : option bool;
  given_refreshTokenURL : option string;
  given_tokenRefreshEnabled : option bool;
  given_tokenRefreshThreshold : option Z;
}.

(** The default [config = {}]. *)
Definition noOverrides : Overrides := {|
  given_baseURL := None; given_timeout := None; given_headers := None;
  given_retry := None; given_retryDelay := None; given_cacheEnabled := None;
  given_cacheTTL := None; given_cacheCheckPeriod := None;
  given_globalErrorHandling := None; given_performanceMonitoring := None;
  given_requestCancellation := None; given_refreshTokenURL := None;
  given_tokenRefreshEnabled := None; given_tokenRefreshThreshold := None;
|}.

(** [{ ...defaults, ...config }]: a shallow merge, the given value wins. *)
Definition mergeConfig (config : Overrides) : Config := {|
  baseURL := default (baseURL defaultConfig) (given_baseURL config);
  timeout := default (timeout defaultConfig) (given_timeout config);
  default_headers := default (default_headers defaultConfig) (given_headers config);
  retry := default (retry defaultConfig) (given_retry config);
  retryDelay := default (retryDelay defaultConfig) (given_retryDelay config);
  cacheEnabled := default (cacheEnabled defaultConfig) (given_cacheEnabled config);
  cacheTTL := default (cacheTTL defaultConfig) (given_cacheTTL config);
  cacheCheckPeriod := default (cacheCheckPeriod defaultConfig) (given_cacheCheckPeriod config);
  globalErrorHandling :=
    default (globalErrorHandling defaultConfig) (given_globalErrorHandling config);
  performanceMonitoring :=
    default (performanceMonitoring defaultConfig) (given_performanceMonitoring config);
  requestCancellation :=
    default (requestCancellation defaultConfig) (given_requestCancellation config);
  refreshTokenURL := default (refreshTokenURL defaultConfig) (given_refreshTokenURL config);
  tokenRefreshEnabled :=
    default (tokenRefreshEnabled defaultConfig) (given_tokenRefreshEnabled config);
  tokenRefreshThreshold :=
    default (tokenRefreshThreshold defaultConfig) (given_tokenRefreshThreshold config);
|}.

(** [new AxiosService(config)] at time [t]: the merge, then the fields. *)
Definition construct (config : Overrides) (t : Z) : State :=
  createInstance (mergeConfig config) t.

End AxiosService.

Import AxiosService.

(** ** Vocabulary of the statements *)

(** [wp m st Q]: running [m] from [st] ends in a result and a state that
    satisfy [Q]. *)
Definition wp {A} (m : M A) (st : State) (Q : A -> State -> Prop) : Prop :=
  Q (m st).1 (m st).2.

(** The configuration, the cache and the token state are the same. *)
Definition unchanged (st st' : State) : Prop :=
  options st' = options st /\ cache st' = cache st /\
  token st' = token st /\ tokenExpiration st' = tokenExpiration st.

(** From [st] to [st'] the transport was invoked at most [d] more times and
    the refresh endpoint at most [r] more times. *)
Definition within (d r : nat) (st st' : State) : Prop :=
  (dispatches st' <= dispatches st + d)%nat /\
  (refreshes st' <= refreshes st + r)%nat.

(** [st'] has the log of [st] and possibly more. *)
Definition extends (st st' : State) : Prop :=
  exists l, events st' = (l ++ events st)%list.

(** Every identity registered in [st] is still registered in [st']. *)
Definition keeps_registered (st st' : State) : Prop :=
  forall id, is_Some (pendingRequests st !! id) -> is_Some (pendingRequests st' !! id).

(** The error a refresh exchange fails with, if it fails. *)
Definition refresh_failure (opts : Config) (reply : RefreshReply) : option AxiosError :=
  match reply with
  | Granted _ _ => None
  | Denied code body => Some (deniedError opts code body)
  | Unreachable message => Some (unreachableError opts message)
  end.

(** The cancellation the pre-send stage performs for request [c] in state
    [st]: the record of the same identity, unless the request opted out. *)
Definition superseded (c : RequestConfig) (st : State) : list Event :=
  match cancelPrevious c with
  | Some false => []
  | _ =>
      match pendingRequests st !! getRequestId c with
      | Some old => [EvCancel (getRequestId c) old]
      | None => []
      end
  end.

(** The sources [cancelPendingRequests] cancels for request [c] in [st]. *)
Definition cancelled_by (c : RequestConfig) (st : State) : list nat :=
  match cancelPrevious c with
  | Some false => []
  | _ =>
      match pendingRequests st !! getRequestId c with
      | Some old => [old]
      | None => []
      end
  end.

(** Every cancel source the registry holds, and every source that has been
    cancelled, was handed out before. *)
Definition sources_known (st : State) : Prop :=
  (forall id s, pendingRequests st !! id = Some s -> (s < nextSource st)%nat) /\
  (forall s, In s (canceled st) -> (s < nextSource st)%nat).

(** Whether the error handler attempts the recovery: the server answered
    401 and token refresh is enabled. *)
Definition recoverable (opts : Config) (error : AxiosError) : bool :=
  match err_response error with
  | Some response => (status response =? 401) && tokenRefreshEnabled opts
  | None => false
  end.

(** The requests handed to the transport so far, newest first. *)
Definition dispatched (st : State) : list RequestConfig :=
  omap (fun e => match e with EvDispatch c => Some c | _ => None end) (events st).

(** The lines printed with [console.log] so far, newest first. *)
Definition console_lines (st : State) : list string :=
  omap (fun e => match e with EvConsoleLog l => Some l | _ => None end) (events st).

(** Two request configurations that differ at most in the cancel token and
    the timing metadata. *)
Definition same_request (c1 c2 : RequestConfig) : Prop :=
  method c1 = method c2 /\ url c1 = url c2 /\ params c1 = params c2 /\
  data c1 = data c2 /\ headers c1 = headers c2 /\
  cancelPrevious c1 = cancelPrevious c2.

(** How many of the scheduler's actions are calls of [getToken()]. *)
Definition calls (acts : list Action) : nat :=
  length (List.filter (fun a => match a with Call => true | Answer _ => false end) acts).

(** Whether the header list has an entry of that name. *)
Definition has_header (name : string) (hs : list (string * string)) : bool :=
  existsb (fun h => String.eqb h.1 name) hs.

(** ** Concrete scenarios *)

(** An environment that plays a script: the n-th dispatch gets the n-th
    reply of the first list, the n-th refresh exchange the n-th reply of the
    second; every answer takes ten milliseconds, and past the end of a
    script there is no answer. *)
Definition scripted (replies : list TransportReply) (grants : list RefreshReply) : Env :=
  {| transport := fun n _ => (10, nth n replies (NoResponse "Network Error"));
     refreshEndpoint := fun n => (10, nth n grants (Unreachable "Network Error")) |}.

(** An environment whose transport always gives the same answer. *)
Definition steady (reply : TransportReply) (grants : list RefreshReply) : Env :=
  {| transport := fun _ _ => (10, reply);
     refreshEndpoint := fun n => (10, nth n grants (Unreachable "Network Error")) |}.

(** A new instance with the default options, created at time 0. *)
Definition fresh : State := createInstance defaultConfig 0.

(** The same instance holding a token that is good for an hour. *)
Definition authenticated : State :=
  set_tokenExpiration (Some 3600000) (set_token (Some "T1") fresh).

(** [{key: 'value'}] *)
Definition keyValue : JSON := JObj [("key", JStr "value")].

(** The request [get('/data', {key: 'value'})] builds. *)
Definition dataRequest : RequestConfig :=
  mkRequest defaultConfig "get" "/data" (Some keyValue) None noConfig.

(** An instance whose cache holds the number 0 for that request. *)
Definition zeroCached : State :=
  set_cache (Some {[ cacheKeyOf "/data" keyValue :=
                       {| entry_value := JNum 0; insertedAt := 0; ttl := 100 |} ]}) fresh.

(** The request [get('/secure')] builds, and the 401 and 404 errors axios
    rejects it with. *)
Definition secureRequest : RequestConfig :=
  mkRequest defaultConfig "get" "/secure" (Some (JObj [])) None noConfig.

Definition errorWith (code : Z) : AxiosError :=
  {| err_response := Some {| status := code; resp_data := JNull;
                             resp_config := secureRequest |};
     err_request := true;
     err_message := "Request failed with status code " +:+ pretty code;
     err_config := secureRequest |}.

(** A server that answers 401 once and then 200 with a payload, while the
    refresh endpoint grants the token T2 for an hour. *)
Definition secret : JSON := JObj [("secret", JNum 42)].

Definition recovering : Env :=
  scripted [Responded 401 JNull; Responded 200 secret] [Granted "T2" 3600].

(** The same server when the client asks a second time. *)
Definition recoveringTwice : Env :=
  scripted [Responded 401 JNull; Responded 200 secret; Responded 200 secret]
           [Granted "T2" 3600].

(** Servers that always answer 200 with a truthy payload, 200 with the
    number 0, and 404. *)
Definition okPayload : JSON := JObj [("ok", JBool true)].
Definition okServer : Env := steady (Responded 200 okPayload) [].
Definition zeroServer : Env := steady (Responded 200 (JNum 0)) [].
Definition missingServer : Env := steady (Responded 404 JNull) [].

(** A server that keeps answering 401 although the refresh is granted. *)
Definition lockedServer : Env := steady (Responded 401 JNull) [Granted "T2" 3600].

(** A refresh endpoint that grants T1 to the first exchange and T2 to the
    second, and one that answers 500 to a client whose requests get 401. *)
Definition twoGrants : Env := scripted [] [Granted "T1" 3600; Granted "T2" 3600].
Definition refusing : Env := steady (Responded 401 JNull) [Denied 500 JNull].

(** Constructor arguments that switch off one feature each. *)
Definition tokenRefreshOff : Overrides := {|
  given_baseURL := None; given_timeout := None; given_headers := None;
  given_retry := None; given_retryDelay := None; given_cacheEnabled := None;
  given_cacheTTL := None; given_cacheCheckPeriod := None;
  given_globalErrorHandling := None; given_performanceMonitoring := None;
  given_requestCancellation := None; given_refreshTokenURL := None;
  given_tokenRefreshEnabled := Some false; given_tokenRefreshThreshold := None;
|}.

Definition cacheOff : Overrides := {|
  given_baseURL := None; given_timeout := None; given_headers := None;
  given_retry := None; given_retryDelay := None; given_cacheEnabled := Some false;
  given_cacheTTL := None; given_cacheCheckPeriod := None;
  given_globalErrorHandling := None; given_performanceMonitoring := None;
  given_requestCancellation := None; given_refreshTokenURL := None;
  given_tokenRefreshEnabled := None; given_tokenRefreshThreshold := None;
|}.

Definition cancellationOff : Overrides := {|
  given_baseURL := None; given_timeout := None; given_headers := None;
  given_retry := None; given_retryDelay := None; given_cacheEnabled := None;
  given_cacheTTL := None; given_cacheCheckPeriod := None;
  given_globalErrorHandling := None; given_performanceMonitoring := None;
  given_requestCancellation := Some false; given_refreshTokenURL := None;
  given_tokenRefreshEnabled := None; given_tokenRefreshThreshold := None;
|}.




(** No dispatched request in the log carries an entry of that header. *)
Definition never_sent (name : string) (st : State) : bool :=
  forallb (fun e => match e with
                    | EvDispatch c => negb (has_header name (headers c))
                    | _ => true
                    end) (events st).

(** ** Reasoning about the state monad *)

Lemma wp_bind {A B} (m : M A) (k : A -> M B) st Q :
  wp m st (fun a st' => wp (k a) st' Q) -> wp (bind m k) st Q.
Proof. unfold wp, bind. destruct (m st); auto. Qed.

Lemma wp_ret {A} (a : A) st (Q : A -> State -> Prop) : Q a st -> wp (ret a) st Q.
Proof. auto. Qed.

Lemma wp_gets {A} (f : State -> A) st (Q : A -> State -> Prop) :
  Q (f st) st -> wp (gets f) st Q.
Proof. auto. Qed.

Lemma wp_modify f st (Q : unit -> State -> Prop) : Q tt (f st) -> wp (modify f) st Q.
Proof. auto. Qed.

Lemma wp_use {A} (m : M A) st (P Q : A -> State -> Prop) :
  wp m st P -> (forall a st', P a st' -> Q a st') -> wp m st Q.
Proof. unfold wp. auto. Qed.

(** One step of symbolic execution, and its closure. *)
Ltac wp_step :=
  lazymatch goal with
  | |- wp (bind _ _) _ _ => apply wp_bind
  | |- wp (ret _) _ _ => apply wp_ret
  | |- wp (gets _) _ _ => apply wp_gets
  | |- wp (modify _) _ _ => apply wp_modify
  | |- wp (if ?b then _ else _) _ _ => destruct b eqn:?
  | |- wp (match ?x with _ => _ end) _ _ => destruct x eqn:?
  end; cbv beta; cbn [fst snd].

Ltac wp_go := repeat wp_step.

Ltac wp_unfold :=
  unfold customAxios_request, customAxios_request_issue,
    customAxios_request_resume, requestInterceptors, attachCancelToken,
    stampStartTime, responseInterceptors, logDuration, cancelPendingRequests,
    trackRequest, cancel, newCancelSource, cache_get, cache_set, refreshToken,
    refreshToken_issue, refreshToken_resume, isTokenExpired, tokenUnusable,
    console_log, console_error, emit, elapse.

Ltac wp_simpl :=
  cbn [dispatches refreshes events options cache pendingRequests token
       tokenExpiration now nextSource canceled set_events set_cache
       set_pendingRequests set_token set_tokenExpiration set_now
       set_nextSource set_canceled List.filter is_dispatch is_refresh length
       fst snd] in *.

(** ** What the building blocks do *)

Lemma settle_err_config c reply e : settle c reply = Rejected e -> err_config e = c.
Proof.
  destruct reply as [code body | message | message]; simpl.
  - destruct (_ && _)%bool; [discriminate|]. intros [= <-]. reflexivity.
  - intros [= <-]. reflexivity.
  - intros [= <-]. reflexivity.
Qed.

Lemma extends_refl st : extends st st.
Proof. exists []. reflexivity. Qed.

Lemma extends_trans st1 st2 st3 : extends st1 st2 -> extends st2 st3 -> extends st1 st3.
Proof.
  intros [l1 H1] [l2 H2]. exists (l2 ++ l1)%list.
  rewrite H2, H1. apply app_assoc.
Qed.

Lemma extends_cons e st st' : events st' = e :: events st -> extends st st'.
Proof. intros H. exists [e]. exact H. Qed.

(** One pass through the axios instance: one dispatch, no refresh exchange;
    with cancellation enabled the registry ends up holding the cancel source
    of this request under its identity, whatever the outcome; the outcome is
    the one axios settles the answer of the transport with. *)
Lemma customAxios_request_spec env c st :
  wp (customAxios_request env c) st (fun o st' =>
    unchanged st st' /\
    dispatches st' = S (dispatches st) /\ refreshes st' = refreshes st /\
    (requestCancellation (options st) = true ->
       pendingRequests st' !! getRequestId c = Some (nextSource st)) /\
    exists c' ms reply,
      transport env (dispatches st) c' = (ms, reply) /\
      now st' = now st + ms /\
      getRequestId c' = getRequestId c /\
      match o with
      | Resolved r => exists r0, settle c' reply = Resolved r0 /\
                        status r = status r0 /\ resp_data r = resp_data r0
      | Rejected e => settle c' reply = Rejected e
      end).
Proof.
  wp_unfold. wp_go; unfold unchanged, dispatches, refreshes; wp_simpl.
  all: repeat split; auto.
  all: try (intros _; apply lookup_insert_eq).
  all: try discriminate.
  all: eexists _, _, _; split; [eassumption|]; split; [reflexivity|];
       split; [reflexivity|]; eauto.
Qed.

(** The log of one pass, with cancellation enabled: the cancellation of the
    superseded record, the registration, the dispatch, and whatever the
    post-receive stage prints. *)
Lemma customAxios_request_events env c st :
  requestCancellation (options st) = true ->
  wp (customAxios_request env c) st (fun _ st' =>
    exists c' post,
      events st' = (post ++ EvDispatch c' :: EvTrack (getRequestId c) (nextSource st)
                      :: superseded c st ++ events st)%list /\
      getRequestId c' = getRequestId c /\
      cancelToken c' = Some (nextSource st)).
Proof.
  intros Hrc. wp_unfold. unfold superseded.
  wp_go; wp_simpl.
  all: try congruence.
  all: repeat match goal with
       | H : cancelPrevious (set_cancelToken _ _) = _ |- _ => cbn in H; rewrite H
       | H : pendingRequests _ !! getRequestId (set_cancelToken _ _) = _ |- _ =>
           change (getRequestId (set_cancelToken ?n ?c)) with (getRequestId c) in H;
           rewrite H
       end.
  all: change (getRequestId (set_cancelToken ?n ?c)) with (getRequestId c).
  all: first [ eexists _, [_]; split; [reflexivity | split; reflexivity]
             | eexists _, []; split; [reflexivity | split; reflexivity] ].
Qed.

Lemma customAxios_request_extends env c st :
  wp (customAxios_request env c) st (fun _ st' => extends st st').
Proof.
  wp_unfold. wp_go; unfold extends; wp_simpl.
  all: first [ eexists [_]; reflexivity | eexists [_; _]; reflexivity
             | eexists [_; _; _]; reflexivity | eexists [_; _; _; _]; reflexivity ].
Qed.

(** One refresh exchange: the token state is replaced when it is granted
    and untouched when it fails. *)
Lemma refreshToken_spec env st :
  wp (refreshToken env) st (fun o st' =>
    options st' = options st /\ cache st' = cache st /\
    pendingRequests st' = pendingRequests st /\
    dispatches st' = dispatches st /\ refreshes st' = S (refreshes st) /\
    extends st st' /\
    match (refreshEndpoint env (refreshes st)).2 with
    | Granted newToken expiresIn =>
        o = Resolved tt /\ token st' = Some newToken /\
        tokenExpiration st' = Some (now st' + expiresIn * 1000)
    | reply =>
        (exists e, refresh_failure (options st) reply = Some e /\ o = Rejected e) /\
        token st' = token st /\ tokenExpiration st' = tokenExpiration st
    end).
Proof.
  wp_unfold. wp_go; unfold dispatches, refreshes, extends in *; wp_simpl.
  all: repeat split; eauto.
  all: first [ eexists [_]; reflexivity | eexists [_; _]; reflexivity ].
Qed.

Lemma wp_and {A} (m : M A) st (P Q : A -> State -> Prop) :
  wp m st P -> wp m st Q -> wp m st (fun a st' => P a st' /\ Q a st').
Proof. unfold wp. auto. Qed.

(** The error handler dispatches at most one retry and issues at most one
    refresh exchange, and a retry is always preceded by a refresh. *)
Lemma handleError_bound env error st :
  wp (handleError env error) st (fun o st' =>
    (dispatches st <= dispatches st' <= dispatches st + 1)%nat /\
    (refreshes st <= refreshes st' <= refreshes st + 1)%nat /\
    extends st st').
Proof.
  unfold handleError, console_error, emit.
  wp_go.
  all: try (unfold dispatches, refreshes, extends; wp_simpl;
            split; [lia|]; split; [lia|];
            first [ eexists [_]; reflexivity | eexists [_; _]; reflexivity ]).
  eapply wp_use; [apply refreshToken_spec|].
  intros o st1 (_ & _ & _ & Hd & Hr & He & _).
  assert (He0 : extends st st1).
  { eapply extends_trans; [|exact He]. eapply extends_cons. reflexivity. }
  clear He.
  unfold dispatches, refreshes in Hd, Hr; wp_simpl.
  wp_go.
  - eapply wp_use;
      [apply wp_and; [apply customAxios_request_spec | apply customAxios_request_extends]|].
    intros o2 st2 [(_ & Hd2 & Hr2 & _) He2].
    wp_go; unfold dispatches, refreshes in *; wp_simpl.
    + split; [lia|]. split; [lia|]. exact (extends_trans _ _ _ He0 He2).
    + split; [lia|]. split; [lia|].
      eapply extends_trans; [exact He0|]. eapply extends_trans; [exact He2|].
      eapply extends_cons. reflexivity.
  - unfold dispatches, refreshes in *; wp_simpl.
    split; [lia|]. split; [lia|].
    eapply extends_trans; [exact He0|]. eapply extends_cons. reflexivity.
Qed.

(** What the error handler resolves with is never an unwrapped payload. *)
Lemma handleError_not_payload env error st :
  wp (handleError env error) st (fun o _ => forall v, o <> Resolved (Payload v)).
Proof.
  unfold handleError, console_error, emit.
  wp_go; try discriminate.
  eapply wp_use; [apply refreshToken_spec|]. intros o st1 _.
  wp_go; try discriminate.
  eapply wp_use; [apply customAxios_request_spec|]. intros o2 st2 _.
  wp_go; discriminate.
Qed.

(** A record that is in the registry under the identity of the failed
    request is still there, or replaced by the one of the retry, when the
    error handler is done. *)
Lemma handleError_registry env error st :
  requestCancellation (options st) = true ->
  is_Some (pendingRequests st !! getRequestId (err_config error)) ->
  wp (handleError env error) st (fun _ st' =>
    is_Some (pendingRequests st' !! getRequestId (err_config error))).
Proof.
  intros Hrc Hreg.
  unfold handleError, console_error, emit.
  wp_go; wp_simpl; try assumption.
  eapply wp_use; [apply refreshToken_spec|].
  intros o st1 (Ho & _ & Hp & _). wp_simpl.
  wp_go; wp_simpl.
  - eapply wp_use; [apply customAxios_request_spec|].
    intros o2 st2 (_ & _ & _ & Hreg2 & _).
    rewrite Ho in Hreg2. specialize (Hreg2 Hrc).
    wp_go; wp_simpl; rewrite Hreg2; eauto.
  - rewrite Hp. assumption.
Qed.

(** After a successful answer, or through the error handler, a verb method
    stays within one more dispatch and one refresh exchange. *)
Lemma verb_tail_bound env (r : Outcome Response) st0 st
    (k : Response -> M (Outcome JsValue)) :
  dispatches st = S (dispatches st0) -> refreshes st = refreshes st0 ->
  (forall resp s, wp (k resp) s (fun _ s' =>
     dispatches s' = dispatches s /\ refreshes s' = refreshes s)) ->
  wp (match r with
      | Resolved response => k response
      | Rejected error => handleError env error
      end) st (fun _ st' =>
    (S (dispatches st0) <= dispatches st')%nat /\ within 2 1 st0 st').
Proof.
  intros Hd Hr Hk. destruct r as [resp | error].
  - eapply wp_use; [apply Hk|]. unfold within. intros _ s' [-> ->]. lia.
  - eapply wp_use; [apply handleError_bound|]. unfold within. intros _ s' ?. lia.
Qed.

Lemma cache_set_counts key v st :
  wp (cache_set key v) st (fun _ st' =>
    dispatches st' = dispatches st /\ refreshes st' = refreshes st).
Proof.
  unfold cache_set, emit. wp_go; unfold dispatches, refreshes; wp_simpl; auto.
Qed.

Lemma get_bound env url params config st :
  wp (get env url params config) st (fun _ st' => within 2 1 st st').
Proof.
  unfold get, get_fetch. cbv zeta. unfold cache_get, emit.
  wp_go.
  all: try (unfold within, dispatches, refreshes; wp_simpl; lia).
  all: (eapply wp_use; [apply customAxios_request_spec|];
        intros o s (_ & Hd & Hr & _); unfold dispatches, refreshes in Hd, Hr; wp_simpl;
        eapply wp_use;
        [apply (verb_tail_bound env o st s); [exact Hd | exact Hr |]
        | intros ? ? [_ H]; exact H]).
  all: intros resp s0; wp_go; eapply wp_use; [apply cache_set_counts|];
       intros u s1 H; wp_go; exact H.
Qed.

Lemma post_bound env url data config st :
  wp (post env url data config) st (fun _ st' => within 2 1 st st').
Proof.
  unfold post. wp_go.
  eapply wp_use; [apply customAxios_request_spec|].
  intros o s (_ & Hd & Hr & _).
  eapply wp_use; [apply (verb_tail_bound env o st s); auto | intros ? ? [_ H]; exact H].
  intros; wp_go; auto.
Qed.

Lemma put_bound env url data config st :
  wp (put env url data config) st (fun _ st' => within 2 1 st st').
Proof.
  unfold put. wp_go.
  eapply wp_use; [apply customAxios_request_spec|].
  intros o s (_ & Hd & Hr & _).
  eapply wp_use; [apply (verb_tail_bound env o st s); auto | intros ? ? [_ H]; exact H].
  intros; wp_go; auto.
Qed.

Lemma delete_bound env url config st :
  wp (AxiosService.delete env url config) st (fun _ st' => within 2 1 st st').
Proof.
  unfold AxiosService.delete. wp_go.
  eapply wp_use; [apply customAxios_request_spec|].
  intros o s (_ & Hd & Hr & _).
  eapply wp_use; [apply (verb_tail_bound env o st s); auto | intros ? ? [_ H]; exact H].
  intros; wp_go; auto.
Qed.

(** When the refresh is granted, the error handler dispatches the retry and
    hands on whatever axios settles it with: a rejection of the retry is
    the rejection of the call. *)
Lemma handleError_retry_outcome env error response st newToken expiresIn :
  err_response error = Some response -> status response = 401 ->
  tokenRefreshEnabled (options st) = true ->
  (refreshEndpoint env (refreshes st)).2 = Granted newToken expiresIn ->
  wp (handleError env error) st (fun o st' =>
    dispatches st' = S (dispatches st) /\ refreshes st' = S (refreshes st) /\
    exists c' ms reply,
      transport env (dispatches st) c' = (ms, reply) /\
      getRequestId c' = getRequestId (err_config error) /\
      match settle c' reply with
      | Rejected e => o = Rejected e
      | Resolved _ => exists r, o = Resolved (Envelope r)
      end).
Proof.
  intros Hresp H401 Hen Hgrant.
  unfold handleError, console_error, emit. apply wp_bind, wp_gets.
  rewrite Hresp, H401, Hen. simpl. wp_go.
  eapply wp_use; [apply refreshToken_spec|].
  intros o st1 (_ & _ & _ & Hd & Hr & _ & H).
  unfold dispatches, refreshes in Hd, Hr, H; wp_simpl.
  change (length (List.filter is_refresh (events st))) with (refreshes st) in H.
  rewrite Hgrant in H. destruct H as (-> & _).
  cbv iota beta. apply wp_bind.
  eapply wp_use; [apply customAxios_request_spec|].
  intros o2 st2 (_ & Hd2 & Hr2 & _ & c' & ms & reply & Ht & _ & Hid & Hout).
  assert (Hsame : dispatches st1 = dispatches st) by exact Hd.
  rewrite Hsame in Ht.
  destruct o2 as [r | e]; wp_go; unfold dispatches, refreshes in *; wp_simpl.
  - split; [congruence|]. split; [congruence|].
    exists c', ms, reply. split; [exact Ht|]. split; [exact Hid|].
    destruct Hout as (r0 & -> & _). eauto.
  - split; [congruence|]. split; [congruence|].
    exists c', ms, reply. split; [exact Ht|]. split; [exact Hid|].
    rewrite Hout. reflexivity.
Qed.

(** ** Properties of the specification *)

(** C4.  The 401 recovery retries the original request at most once.  The
    error handler invokes the transport at most one more time and the
    refresh endpoint at most one more time, whatever the failed retry looks
    like; so every call through [get], [post], [put] or [delete] invokes
    the transport at most twice and the refresh endpoint at most once.  And
    when the refresh is granted, the outcome of the one retry is the outcome
    of the call: if the retried request is rejected, with a 401 or anything
    else, the call is rejected with that error. *)
Theorem retry_at_most_once env st :
  (forall error, within 1 1 st (handleError env error st).2) /\
  (forall u ps cfg, within 2 1 st (get env u ps cfg st).2) /\
  (forall u d cfg, within 2 1 st (post env u d cfg st).2) /\
  (forall u d cfg, within 2 1 st (put env u d cfg st).2) /\
  (forall u cfg, within 2 1 st (AxiosService.delete env u cfg st).2) /\
  (forall error response newToken expiresIn,
     err_response error = Some response -> status response = 401 ->
     tokenRefreshEnabled (options st) = true ->
     (refreshEndpoint env (refreshes st)).2 = Granted newToken expiresIn ->
     exists c' ms reply,
       transport env (dispatches st) c' = (ms, reply) /\
       getRequestId c' = getRequestId (err_config error) /\
       match settle c' reply with
       | Rejected e => (handleError env error st).1 = Rejected e
       | Resolved _ => exists r, (handleError env error st).1 = Resolved (Envelope r)
       end).
Proof.
  split; [|split; [|split; [|split; [|split]]]].
  - intros error. pose proof (handleError_bound env error st) as H.
    unfold wp in H. unfold within. lia.
  - intros u ps cfg. exact (get_bound env u ps cfg st).
  - intros u d cfg. exact (post_bound env u d cfg st).
  - intros u d cfg. exact (put_bound env u d cfg st).
  - intros u cfg. exact (delete_bound env u cfg st).
  - intros error response newToken expiresIn Hresp H401 Hen Hgrant.
    pose proof (handleError_retry_outcome env error response st newToken expiresIn
                  Hresp H401 Hen Hgrant) as H.
    unfold wp in H. destruct H as (_ & _ & H). exact H.
Qed.

(** C7.  A failed refresh exchange leaves the token and its expiry as they
    were, and the error of the exchange (the one addressed to the refresh
    endpoint) is what the caller gets: from [refreshToken] itself, from
    [getToken] when it has to refresh, and from the 401 recovery of the
    error handler, which rejects with it and not with the 401 error it was
    handling. *)
Theorem refresh_failure_keeps_token env st e :
  refresh_failure (options st) (refreshEndpoint env (refreshes st)).2 = Some e ->
  url (err_config e) = refreshTokenURL (options st) /\
  ((refreshToken env st).1 = Rejected e /\
   token (refreshToken env st).2 = token st /\
   tokenExpiration (refreshToken env st).2 = tokenExpiration st) /\
  ((tokenUnusable st).1 = true ->
   (getToken env st).1 = Rejected e /\
   token (getToken env st).2 = token st /\
   tokenExpiration (getToken env st).2 = tokenExpiration st) /\
  (forall error response,
     err_response error = Some response -> status response = 401 ->
     tokenRefreshEnabled (options st) = true ->
     (handleError env error st).1 = Rejected e /\
     token (handleError env error st).2 = token st /\
     tokenExpiration (handleError env error st).2 = tokenExpiration st /\
     dispatches (handleError env error st).2 = dispatches st).
Proof.
  intros Hfail.
  assert (Hrefresh : forall s, options s = options st -> refreshes s = refreshes st ->
            wp (refreshToken env) s (fun o s' =>
              o = Rejected e /\ token s' = token s /\
              tokenExpiration s' = tokenExpiration s /\ dispatches s' = dispatches s)).
  { intros s Ho Hr. eapply wp_use; [apply refreshToken_spec|].
    intros o s' (_ & _ & _ & Hd & _ & _ & H).
    rewrite Hr, Ho in H.
    destruct (refreshEndpoint env (refreshes st)).2; simpl in Hfail.
    - discriminate.
    - destruct H as ((e' & He' & ->) & Ht & Hx). simpl in He'.
      split; [congruence | auto].
    - destruct H as ((e' & He' & ->) & Ht & Hx). simpl in He'.
      split; [congruence | auto]. }
  split; [|split; [|split]].
  - destruct (refreshEndpoint env (refreshes st)).2; simpl in Hfail;
      [discriminate | |]; injection Hfail as <-; reflexivity.
  - destruct (Hrefresh st eq_refl eq_refl) as (H1 & H2 & H3 & _). auto.
  - intros Hstale.
    assert (H : wp (getToken env) st (fun o s' =>
              o = Rejected e /\ token s' = token st /\
              tokenExpiration s' = tokenExpiration st)).
    { unfold getToken. apply wp_bind.
      unfold wp at 1. destruct (tokenUnusable st) as [stale s0] eqn:Hs.
      assert (s0 = st) as ->.
      { revert Hs. unfold tokenUnusable, isTokenExpired, bind, gets, ret.
        destruct (noToken (token st)); intros [= _ <-]; reflexivity. }
      simpl in Hstale. subst stale. simpl.
      apply wp_bind. eapply wp_use; [apply (Hrefresh st eq_refl eq_refl)|].
      intros o s' (-> & Ht & Hx & _). wp_go. auto. }
    exact H.
  - intros error response Hresp H401 Hen.
    assert (H : wp (handleError env error) st (fun o s' =>
              o = Rejected e /\ token s' = token st /\
              tokenExpiration s' = tokenExpiration st /\ dispatches s' = dispatches st)).
    { unfold handleError, console_error, emit. apply wp_bind, wp_gets.
      rewrite Hresp, H401, Hen. simpl.
      wp_go.
      eapply wp_use; [apply Hrefresh; reflexivity|].
      intros o s' (-> & Ht & Hx & Hd). wp_go.
      unfold dispatches in *. wp_simpl. auto. }
    exact H.
Qed.

(** The cache lookup only logs itself. *)
Lemma cache_get_spec key st :
  wp (cache_get key) st (fun _ st' =>
    unchanged st st' /\ pendingRequests st' = pendingRequests st /\
    nextSource st' = nextSource st /\ now st' = now st /\
    dispatches st' = dispatches st /\ refreshes st' = refreshes st /\
    events st' = match cache st with
                 | Some _ => EvCacheGet key :: events st
                 | None => events st
                 end).
Proof.
  unfold cache_get, emit.
  wp_go; unfold unchanged, dispatches, refreshes; wp_simpl; repeat split; auto.
Qed.

(** The error handler on a 404: one console line, the same error. *)
Lemma handleError_404 env error response st :
  err_response error = Some response -> status response = 404 ->
  handleError env error st = (Rejected error, (console_error "Resource not found:" st).2).
Proof.
  intros Hresp H404. unfold handleError, bind, gets.
  rewrite Hresp, H404. reflexivity.
Qed.

(** C8.  A 404 answer makes the call fail with the not-found error: the
    error handler logs the not-found line and rejects with the error it was
    given, and a [get] whose request the transport answers with 404 rejects
    with an error that carries that 404 response, after exactly one dispatch
    and without any refresh exchange. *)
Theorem not_found_is_not_recovered env st :
  (forall error response,
     err_response error = Some response -> status response = 404 ->
     (handleError env error st).1 = Rejected error /\
     events (handleError env error st).2
       = EvConsoleError "Resource not found:" :: events st) /\
  (forall u ps cfg body,
     (forall n c, (transport env n c).2 = Responded 404 body) ->
     truthy_opt (cache_get (cacheKeyOf u (default (JObj []) ps)) st).1 = false ->
     exists e response,
       (get env u ps cfg st).1 = Rejected e /\
       err_response e = Some response /\ status response = 404 /\
       dispatches (get env u ps cfg st).2 = S (dispatches st) /\
       refreshes (get env u ps cfg st).2 = refreshes st).
Proof.
  split.
  - intros error response Hresp H404.
    rewrite (handleError_404 env error response st Hresp H404). split; reflexivity.
  - intros u ps cfg body Hnf Hmiss.
    assert (Hfetch : forall s, dispatches s = dispatches st -> refreshes s = refreshes st ->
      wp (get_fetch env u (default (JObj []) ps) cfg) s
        (fun o s' => exists e response, o = Rejected e /\
           err_response e = Some response /\ status response = 404 /\
           dispatches s' = S (dispatches st) /\ refreshes s' = refreshes st)).
    { intros s Hd Hr. unfold get_fetch. wp_go.
      eapply wp_use; [apply customAxios_request_spec|].
      intros o s1 (_ & Hd1 & Hr1 & _ & c' & ms & reply & Ht & _ & _ & Ho).
      pose proof (Hnf (dispatches s) c') as Hreply. rewrite Ht in Hreply.
      simpl in Hreply. subst reply. simpl in Ho.
      destruct o as [r | e].
      - destruct Ho as (r0 & Hr0 & _). discriminate.
      - injection Ho as <-.
        unfold wp. erewrite handleError_404; [|reflexivity|reflexivity].
        eexists _, _. split; [reflexivity|]. split; [reflexivity|].
        split; [reflexivity|].
        unfold console_error, emit, modify, dispatches, refreshes in *. wp_simpl.
        split; congruence. }
    assert (H : wp (get env u ps cfg) st (fun o s' => exists e response, o = Rejected e /\
           err_response e = Some response /\ status response = 404 /\
           dispatches s' = S (dispatches st) /\ refreshes s' = refreshes st)).
    { unfold get. cbv zeta. apply wp_bind.
      pose proof (cache_get_spec (cacheKeyOf u (default (JObj []) ps)) st) as Hc.
      unfold wp in Hc |- *.
      destruct (cache_get (cacheKeyOf u (default (JObj []) ps)) st) as [cr s0].
      simpl in Hc, Hmiss |- *.
      destruct Hc as (_ & _ & _ & _ & Hd & Hr & _).
      destruct cr as [v|]; simpl in Hmiss; [rewrite Hmiss|]; apply Hfetch; assumption. }
    exact H.
Qed.

(** A visible, truthy entry answers the read request at once. *)
Lemma get_hit env u ps cfg st store e :
  cache st = Some store ->
  store !! cacheKeyOf u (default (JObj []) ps) = Some e ->
  visible (now st) e = true ->
  truthy (entry_value e) = true ->
  get env u ps cfg st
  = (Resolved (Payload (entry_value e)),
     set_events (EvCacheGet (cacheKeyOf u (default (JObj []) ps)) :: events st) st).
Proof.
  intros Hc Hl Hv Ht.
  unfold get, cache_get, emit, bind, gets, modify, ret. cbv zeta.
  rewrite Hc. simpl. rewrite Hl, Hv, Ht. reflexivity.
Qed.

Lemma cache_set_spec key v st :
  wp (cache_set key v) st (fun _ st' =>
    options st' = options st /\ now st' = now st /\
    pendingRequests st' = pendingRequests st /\
    dispatches st' = dispatches st /\ refreshes st' = refreshes st /\
    extends st st' /\
    cache st' = match cache st with
                | Some store =>
                    Some (<[key := {| entry_value := v; insertedAt := now st;
                                      ttl := cacheTTL (options st) |}]> store)
                | None => None
                end).
Proof.
  unfold cache_set, emit.
  wp_go; unfold dispatches, refreshes, extends; wp_simpl; repeat split; auto.
  - eexists [_]; reflexivity.
  - exists []; reflexivity.
Qed.

Lemma get_fetch_spec env u ps cfg st :
  wp (get_fetch env u ps cfg) st (fun o st' =>
    (S (dispatches st) <= dispatches st')%nat /\
    (forall v, o = Resolved (Payload v) ->
       options st' = options st /\
       cache st' = match cache st with
                   | Some store =>
                       Some (<[cacheKeyOf u ps := {| entry_value := v; insertedAt := now st';
                                                     ttl := cacheTTL (options st) |}]> store)
                   | None => None
                   end) /\
    (requestCancellation (options st) = true ->
     is_Some (pendingRequests st' !!
                getRequestId (mkRequest (options st) "get" u (Some ps) None cfg)))).
Proof.
  unfold get_fetch. wp_go.
  eapply wp_use; [apply customAxios_request_spec|].
  intros o s ((Ho & Hc & _) & Hd & _ & Hreg & c' & ms & reply & _ & _ & Hid & Hout).
  destruct o as [response | error].
  - wp_go. eapply wp_use; [apply cache_set_spec|].
    intros [] s1 (Ho1 & Hn1 & Hp1 & Hd1 & _ & _ & Hc1). wp_go.
    split; [lia|]. split.
    + intros v [= <-]. split; [congruence|].
      rewrite Hc1, Hc, Ho, Hn1. reflexivity.
    + intros Hrc. rewrite Hp1, (Hreg Hrc). eauto.
  - eapply wp_use;
      [apply wp_and; [apply handleError_bound | apply wp_and;
         [apply handleError_not_payload | ]]|].
    2: { intros o s' (Hb & Hnp & Hr'). split; [lia|]. split.
         - intros v ->. destruct (Hnp v eq_refl).
         - exact Hr'. }
    cbv beta.
    destruct (requestCancellation (options st)) eqn:Hrc.
    + eapply wp_use; [apply handleError_registry|].
      * congruence.
      * rewrite (settle_err_config _ _ _ Hout), Hid, (Hreg eq_refl). eauto.
      * intros o s' H _.
        rewrite (settle_err_config _ _ _ Hout), Hid in H. exact H.
    + unfold wp. discriminate.
Qed.

(** [get] run from [st]: the lookup, then either the cached value or the
    [try] block from the state the lookup leaves. *)
Lemma get_cases env u ps cfg st :
  let key := cacheKeyOf u (default (JObj []) ps) in
  let s0 := (cache_get key st).2 in
  (exists v, (cache_get key st).1 = Some v /\ truthy v = true /\
     get env u ps cfg st = (Resolved (Payload v), s0)) \/
  (truthy_opt (cache_get key st).1 = false /\
     get env u ps cfg st = get_fetch env u (default (JObj []) ps) cfg s0).
Proof.
  intros key s0. unfold get, bind. cbv zeta. fold key.
  subst s0. destruct (cache_get key st) as [[v|] s0]; simpl.
  - destruct (truthy v) eqn:Hv.
    + left. exists v. auto.
    + right. split; reflexivity.
  - right. split; reflexivity.
Qed.

(** C5 (as the code has it).  Two [get] calls with the same url and
    parameters, caching enabled: if the first is answered by the transport
    directly (one dispatch, no 401 recovery) with a truthy payload and the
    second is issued before the time to live of the cache has passed, the
    second returns that same payload and the transport is not invoked
    again. *)
Theorem get_twice_within_ttl env u ps cfg cfg' st v dt :
  cache st <> None ->
  (get env u ps cfg st).1 = Resolved (Payload v) ->
  dispatches (get env u ps cfg st).2 = S (dispatches st) ->
  truthy v = true ->
  dt < cacheTTL (options st) * 1000 ->
  let st1 := (elapse dt (get env u ps cfg st).2).2 in
  (get env u ps cfg' st1).1 = Resolved (Payload v) /\
  dispatches (get env u ps cfg' st1).2 = S (dispatches st).
Proof.
  intros Hcache Hres Hdisp Hv Hdt st1.
  set (key := cacheKeyOf u (default (JObj []) ps)) in *.
  pose proof (cache_get_spec key st) as Hget. unfold wp in Hget.
  destruct Hget as ((Ho0 & Hc0 & _) & _ & _ & Hn0 & Hd0 & _).
  assert (Hstore : exists store1,
            cache (get env u ps cfg st).2 = Some store1 /\
            store1 !! key = Some {| entry_value := v;
                                    insertedAt := now (get env u ps cfg st).2;
                                    ttl := cacheTTL (options st) |}).
  { destruct (get_cases env u ps cfg st) as [(v0 & _ & _ & Hg) | (_ & Hg)];
      fold key in Hg.
    - rewrite Hg in Hdisp. simpl in Hdisp. lia.
    - rewrite Hg in Hres |- *.
      pose proof (get_fetch_spec env u (default (JObj []) ps) cfg (cache_get key st).2) as Hf.
      unfold wp in Hf. destruct Hf as (_ & Hf & _).
      destruct (Hf v Hres) as [_ Hc1]. rewrite Hc0, Ho0 in Hc1.
      destruct (cache st) as [store|]; [|congruence].
      eexists. split; [exact Hc1|]. apply lookup_insert_eq. }
  destruct Hstore as (store1 & Hc1 & Hl1).
  assert (Hhit : get env u ps cfg' st1
                 = (Resolved (Payload v), set_events (EvCacheGet key :: events st1) st1)).
  { apply (get_hit env u ps cfg' st1 store1
             {| entry_value := v; insertedAt := now (get env u ps cfg st).2;
                ttl := cacheTTL (options st) |}); [exact Hc1 | exact Hl1 | | exact Hv].
    unfold visible. subst st1. simpl. apply Z.ltb_lt. lia. }
  rewrite Hhit. split; [reflexivity|]. exact Hdisp.
Qed.

(** C10.  A falsy value in the cache does not answer a read request: if the
    visible entry for the key of a [get] holds [null], [false], [0] or the
    empty string, the call goes on to the transport. *)
Theorem falsy_cached_value_is_a_miss env u ps cfg st store e :
  cache st = Some store ->
  store !! cacheKeyOf u (default (JObj []) ps) = Some e ->
  visible (now st) e = true ->
  truthy (entry_value e) = false ->
  (cache_get (cacheKeyOf u (default (JObj []) ps)) st).1 = Some (entry_value e) /\
  (S (dispatches st) <= dispatches (get env u ps cfg st).2)%nat.
Proof.
  intros Hc Hl Hv Hf.
  set (key := cacheKeyOf u (default (JObj []) ps)) in *.
  assert (Hlook : (cache_get key st).1 = Some (entry_value e)).
  { unfold cache_get, bind, gets, emit, modify, ret. rewrite Hc. simpl.
    rewrite Hl, Hv. reflexivity. }
  split; [exact Hlook|].
  pose proof (cache_get_spec key st) as Hget. unfold wp in Hget.
  destruct Hget as (_ & _ & _ & _ & Hd0 & _).
  destruct (get_cases env u ps cfg st) as [(v0 & Hv0 & Ht0 & _) | (_ & Hg)];
    fold key in Hv0 || fold key in Hg.
  - congruence.
  - rewrite Hg.
    pose proof (get_fetch_spec env u (default (JObj []) ps) cfg (cache_get key st).2) as Hfs.
    unfold wp in Hfs. destruct Hfs as (Hlow & _). lia.
Qed.

Lemma keeps_registered_refl st : keeps_registered st st.
Proof. intros id H. exact H. Qed.

Lemma keeps_registered_trans st1 st2 st3 :
  keeps_registered st1 st2 -> keeps_registered st2 st3 -> keeps_registered st1 st3.
Proof. intros H1 H2 id H. apply H2, H1, H. Qed.

Lemma keeps_registered_same st st' :
  pendingRequests st' = pendingRequests st -> keeps_registered st st'.
Proof. intros E id H. rewrite E. exact H. Qed.

Lemma lookup_reinsert (p : gmap string nat) k n id :
  is_Some (p !! id) -> is_Some (<[k := n]> (base.delete k p) !! id).
Proof.
  intros H. destruct (decide (k = id)) as [->|Hne].
  - rewrite lookup_insert_eq. eauto.
  - rewrite lookup_insert_ne, lookup_delete_ne; assumption.
Qed.

Lemma lookup_overwrite (p : gmap string nat) k n id :
  is_Some (p !! id) -> is_Some (<[k := n]> p !! id).
Proof.
  intros H. destruct (decide (k = id)) as [->|Hne].
  - rewrite lookup_insert_eq. eauto.
  - rewrite lookup_insert_ne; assumption.
Qed.

(** One pass through the axios instance never unregisters an identity. *)
Lemma customAxios_request_keeps env c st :
  wp (customAxios_request env c) st (fun _ st' => keeps_registered st st').
Proof.
  wp_unfold. wp_go; unfold keeps_registered; wp_simpl; intros id H.
  all: first [ exact H | apply lookup_reinsert, H | apply lookup_overwrite, H ].
Qed.

Lemma handleError_keeps env error st :
  wp (handleError env error) st (fun _ st' => keeps_registered st st').
Proof.
  unfold handleError, console_error, emit.
  wp_go; try (apply keeps_registered_same; reflexivity).
  eapply wp_use; [apply refreshToken_spec|].
  intros o st1 (_ & _ & Hp & _). wp_simpl.
  wp_go.
  - eapply wp_use; [apply customAxios_request_keeps|].
    intros o2 st2 Hk.
    assert (keeps_registered st st2) as Hk2.
    { eapply keeps_registered_trans; [|exact Hk]. apply keeps_registered_same. exact Hp. }
    wp_go; [exact Hk2|].
    eapply keeps_registered_trans; [exact Hk2|]. apply keeps_registered_same. reflexivity.
  - apply keeps_registered_same. wp_simpl. exact Hp.
Qed.

Lemma verb_tail_keeps env (r : Outcome Response) st0 st
    (k : Response -> M (Outcome JsValue)) :
  keeps_registered st0 st ->
  (forall resp s, wp (k resp) s (fun _ s' => pendingRequests s' = pendingRequests s)) ->
  wp (match r with
      | Resolved response => k response
      | Rejected error => handleError env error
      end) st (fun _ st' => keeps_registered st0 st').
Proof.
  intros H0 Hk. destruct r as [resp | error].
  - eapply wp_use; [apply Hk|]. intros o s' E.
    eapply keeps_registered_trans; [exact H0|]. apply keeps_registered_same, E.
  - eapply wp_use; [apply handleError_keeps|]. intros o s' H.
    eapply keeps_registered_trans; eassumption.
Qed.

Lemma get_keeps env u ps cfg st :
  keeps_registered st (get env u ps cfg st).2.
Proof.
  pose proof (cache_get_spec (cacheKeyOf u (default (JObj []) ps)) st) as Hget.
  unfold wp in Hget. destruct Hget as (_ & Hp0 & _).
  destruct (get_cases env u ps cfg st) as [(v0 & _ & _ & Hg) | (_ & Hg)]; rewrite Hg.
  - apply keeps_registered_same, Hp0.
  - eapply keeps_registered_trans; [apply keeps_registered_same, Hp0|].
    assert (H : wp (get_fetch env u (default (JObj []) ps) cfg)
                  (cache_get (cacheKeyOf u (default (JObj []) ps)) st).2
                  (fun _ s' => keeps_registered
                     (cache_get (cacheKeyOf u (default (JObj []) ps)) st).2 s')).
    { unfold get_fetch. wp_go.
      eapply wp_use; [apply customAxios_request_keeps|]. intros o s Hk.
      apply verb_tail_keeps; [exact Hk|].
      intros resp s0. wp_go. eapply wp_use; [apply cache_set_spec|].
      intros [] s1 (_ & _ & Hp & _). wp_go. exact Hp. }
    exact H.
Qed.

Lemma post_keeps env u d cfg st : keeps_registered st (post env u d cfg st).2.
Proof.
  assert (H : wp (post env u d cfg) st (fun _ s' => keeps_registered st s')).
  { unfold post. wp_go.
    eapply wp_use; [apply customAxios_request_keeps|]. intros o s Hk.
    apply verb_tail_keeps; [exact Hk|]. intros resp s0. wp_go. reflexivity. }
  exact H.
Qed.

Lemma put_keeps env u d cfg st : keeps_registered st (put env u d cfg st).2.
Proof.
  assert (H : wp (put env u d cfg) st (fun _ s' => keeps_registered st s')).
  { unfold put. wp_go.
    eapply wp_use; [apply customAxios_request_keeps|]. intros o s Hk.
    apply verb_tail_keeps; [exact Hk|]. intros resp s0. wp_go. reflexivity. }
  exact H.
Qed.

Lemma delete_keeps env u cfg st :
  keeps_registered st (AxiosService.delete env u cfg st).2.
Proof.
  assert (H : wp (AxiosService.delete env u cfg) st (fun _ s' => keeps_registered st s')).
  { unfold AxiosService.delete. wp_go.
    eapply wp_use; [apply customAxios_request_keeps|]. intros o s Hk.
    apply verb_tail_keeps; [exact Hk|]. intros resp s0. wp_go. reflexivity. }
  exact H.
Qed.

(** The completion of a request does not touch the registry. *)
Lemma customAxios_request_resume_registry c answer st :
  wp (customAxios_request_resume c answer) st (fun _ st' =>
    pendingRequests st' = pendingRequests st).
Proof.
  wp_unfold. wp_go; wp_simpl; reflexivity.
Qed.

(** C6 (as the code has it).  With cancellation enabled, settling a request
    removes nothing from the registry.  The completion of a request, with
    whatever answer (fulfilled, rejected or cancelled), leaves the registry
    as it is; so after one pass through the axios instance the registry
    still holds the cancel source of that very request under its identity,
    after a [get] that went to the transport the identity of the request
    is still registered, and no call of a verb method ever unregisters an
    identity.  The only removal is the one a later request of the same
    identity performs on the record it supersedes, just before it
    registers itself. *)
Theorem settled_request_stays_registered env st :
  requestCancellation (options st) = true ->
  (forall c answer,
     pendingRequests (customAxios_request_resume c answer st).2 = pendingRequests st) /\
  (forall c, pendingRequests (customAxios_request env c st).2 !! getRequestId c
             = Some (nextSource st)) /\
  (forall u ps cfg,
     truthy_opt (cache_get (cacheKeyOf u (default (JObj []) ps)) st).1 = false ->
     is_Some (pendingRequests (get env u ps cfg st).2 !!
                getRequestId (mkRequest (options st) "get" u
                                (Some (default (JObj []) ps)) None cfg))) /\
  (forall u ps cfg, keeps_registered st (get env u ps cfg st).2) /\
  (forall u d cfg, keeps_registered st (post env u d cfg st).2) /\
  (forall u d cfg, keeps_registered st (put env u d cfg st).2) /\
  (forall u cfg, keeps_registered st (AxiosService.delete env u cfg st).2) /\
  (forall c, pendingRequests (cancelPendingRequests c st).2 !! getRequestId c = None).
Proof.
  intros Hrc. split; [|split; [|split; [|split; [|split; [|split; [|split]]]]]].
  - intros c answer. exact (customAxios_request_resume_registry c answer st).
  - intros c. pose proof (customAxios_request_spec env c st) as H.
    unfold wp in H. destruct H as (_ & _ & _ & H & _). exact (H Hrc).
  - intros u ps cfg Hmiss.
    set (key := cacheKeyOf u (default (JObj []) ps)) in *.
    pose proof (cache_get_spec key st) as Hget. unfold wp in Hget.
    destruct Hget as ((Ho0 & _) & _).
    destruct (get_cases env u ps cfg st) as [(v0 & Hv0 & Ht0 & _) | (_ & Hg)];
      fold key in Hv0 || fold key in Hg.
    + rewrite Hv0 in Hmiss. simpl in Hmiss. congruence.
    + rewrite Hg.
      pose proof (get_fetch_spec env u (default (JObj []) ps) cfg (cache_get key st).2) as Hf.
      unfold wp in Hf. destruct Hf as (_ & _ & Hf).
      rewrite Ho0 in Hf. exact (Hf Hrc).
  - intros u ps cfg. apply get_keeps.
  - intros u d cfg. apply post_keeps.
  - intros u d cfg. apply put_keeps.
  - intros u cfg. apply delete_keeps.
  - intros c. unfold cancelPendingRequests, cancel, emit, bind, gets, modify, ret.
    destruct (pendingRequests st !! getRequestId c) eqn:Hl; simpl.
    + apply lookup_delete_eq.
    + exact Hl.
Qed.

Lemma superseded_rev c st : rev (superseded c st) = superseded c st.
Proof.
  unfold superseded.
  destruct (cancelPrevious c) as [[|]|];
    destruct (pendingRequests st !! getRequestId c); reflexivity.
Qed.

(** The log of the [try] block of [get], with cancellation enabled. *)
Lemma get_fetch_events env u ps cfg st :
  requestCancellation (options st) = true ->
  let c := mkRequest (options st) "get" u (Some ps) None cfg in
  wp (get_fetch env u ps cfg) st (fun _ st' =>
    exists c' post,
      events st' = (post ++ EvDispatch c' :: EvTrack (getRequestId c) (nextSource st)
                      :: superseded c st ++ events st)%list /\
      getRequestId c' = getRequestId c /\
      cancelToken c' = Some (nextSource st)).
Proof.
  intros Hrc c. unfold get_fetch. wp_go. fold c.
  eapply wp_use; [apply (customAxios_request_events _ _ _ Hrc)|].
  intros o s (c' & post & Hev & Hid & Htok).
  assert (Htail : forall s', extends s s' ->
            exists c'0 post0,
              events s' = (post0 ++ EvDispatch c'0
                             :: EvTrack (getRequestId c) (nextSource st)
                             :: superseded c st ++ events st)%list /\
              getRequestId c'0 = getRequestId c /\
              cancelToken c'0 = Some (nextSource st)).
  { intros s' [l Hl]. exists c', (l ++ post)%list.
    rewrite Hl, Hev, <- app_assoc. auto. }
  destruct o as [response | error].
  - wp_go. eapply wp_use; [apply cache_set_spec|].
    intros [] s1 (_ & _ & _ & _ & _ & He & _). wp_go. apply Htail, He.
  - eapply wp_use; [apply handleError_bound|].
    intros o s1 (_ & _ & He). apply Htail, He.
Qed.

(** C9 (as the code has it).  With caching enabled, a [get] consults the
    response cache first.  On a hit nothing else happens: the registry is
    not touched.  On a miss, with cancellation enabled, the registry step
    follows: the record of the same identity is cancelled (unless the
    request opted out), the new request is registered with its own cancel
    source, and only then is that request dispatched to the transport. *)
Theorem get_order_of_steps env u ps cfg st :
  let key := cacheKeyOf u (default (JObj []) ps) in
  let c := mkRequest (options st) "get" u (Some (default (JObj []) ps)) None cfg in
  cache st <> None ->
  requestCancellation (options st) = true ->
  (truthy_opt (cache_get key st).1 = true ->
     history (get env u ps cfg st).2 = (history st ++ [EvCacheGet key])%list /\
     pendingRequests (get env u ps cfg st).2 = pendingRequests st) /\
  (truthy_opt (cache_get key st).1 = false ->
     exists c' rest,
       history (get env u ps cfg st).2
       = (history st ++ EvCacheGet key :: superseded c st
            ++ EvTrack (getRequestId c) (nextSource st) :: EvDispatch c' :: rest)%list /\
       getRequestId c' = getRequestId c /\
       cancelToken c' = Some (nextSource st)).
Proof.
  intros key c Hcache Hrc.
  pose proof (cache_get_spec key st) as Hget. unfold wp in Hget.
  destruct Hget as ((Ho0 & _) & Hp0 & Hn0 & _ & _ & _ & Hev0).
  destruct (cache st) as [store|] eqn:Hc; [clear Hcache | congruence].
  split; intros Hlook.
  - destruct (get_cases env u ps cfg st) as [(v0 & Hv0 & Ht0 & Hg) | (Hmiss & _)];
      fold key in Hv0, Hg || fold key in Hmiss.
    + rewrite Hg. simpl. unfold history. rewrite Hev0. simpl. auto.
    + congruence.
  - destruct (get_cases env u ps cfg st) as [(v0 & Hv0 & Ht0 & _) | (_ & Hg)];
      fold key in Hv0 || fold key in Hg.
    + rewrite Hv0 in Hlook. simpl in Hlook. congruence.
    + rewrite Hg.
      pose proof (get_fetch_events env u (default (JObj []) ps) cfg (cache_get key st).2) as Hf.
      rewrite Ho0 in Hf. specialize (Hf Hrc). cbv zeta in Hf. unfold wp in Hf.
      destruct Hf as (c' & post & Hev & Hid & Htok).
      exists c', (rev post). unfold history. rewrite Hev.
      fold c. replace (superseded c (cache_get key st).2) with (superseded c st)
        by (unfold superseded; rewrite Hp0; reflexivity).
      rewrite Hn0 in Htok |- *. rewrite Hev0.
      split; [|split; [exact Hid | exact Htok]].
      rewrite rev_app_distr. simpl. rewrite rev_app_distr. simpl.
      rewrite superseded_rev, <- !app_assoc. reflexivity.
Qed.

(** [tokenUnusable] only reads the token, its expiry and the clock. *)
Lemma tokenUnusable_reads st :
  tokenUnusable st
  = (noToken (token st) || match tokenExpiration st with
                           | None => true
                           | Some e => e <=? now st
                           end, st).
Proof.
  unfold tokenUnusable, isTokenExpired, bind, gets, ret.
  destruct (noToken (token st)); reflexivity.
Qed.

(** A caller that finds no usable token issues a refresh exchange of its
    own and waits for it. *)
Lemma getToken_start_stale st :
  (tokenUnusable st).1 = true ->
  getToken_start st
  = (Awaiting (refreshes st),
     set_events (EvRefreshPost (refreshTokenURL (options st)) :: events st) st).
Proof.
  intros H. unfold getToken_start, bind. rewrite tokenUnusable_reads in H |- *.
  simpl in H. rewrite H. reflexivity.
Qed.

(** The sequential [getToken] is its first half followed by its second. *)
Lemma getToken_split env st :
  getToken env st
  = (let* t := getToken_start in
     match t with
     | Awaiting n => getToken_resume (refreshEndpoint env n)
     | Settled o => ret o
     end) st.
Proof.
  unfold getToken, getToken_start, getToken_resume, refreshToken, bind.
  rewrite tokenUnusable_reads.
  destruct (_ || _)%bool; reflexivity.
Qed.

Lemma calls_while_stale env n : forall tasks st,
  (tokenUnusable st).1 = true ->
  exists st',
    fold_left (step env) (replicate n Call) (tasks, st)
    = ((tasks ++ map Awaiting (seq (refreshes st) n))%list, st') /\
    refreshes st' = (refreshes st + n)%nat /\
    (tokenUnusable st').1 = true.
Proof.
  induction n as [|n IH]; intros tasks st Hstale.
  - exists st. simpl. rewrite app_nil_r. split; [reflexivity|]. split; [lia | exact Hstale].
  - simpl. rewrite (getToken_start_stale st Hstale).
    set (st1 := set_events _ st).
    assert (Hstale1 : (tokenUnusable st1).1 = true).
    { rewrite tokenUnusable_reads in Hstale |- *. exact Hstale. }
    destruct (IH (tasks ++ [Awaiting (refreshes st)])%list st1 Hstale1) as (st' & Hrun & Hr & Hs).
    exists st'. rewrite Hrun. split; [|split; [|exact Hs]].
    + rewrite <- app_assoc. reflexivity.
    + rewrite Hr. unfold st1, refreshes. simpl. lia.
Qed.

(** C1 (as the code has it).  Refreshes are not coalesced: when [n] callers
    invoke [getToken()] while no usable token exists and before any refresh
    exchange has been answered, each caller issues a refresh exchange of its
    own and waits for that one, so [n] exchanges are issued. *)
Theorem concurrent_getToken_refreshes_each env st n :
  (tokenUnusable st).1 = true ->
  (schedule env (replicate n Call) st).1 = map Awaiting (seq (refreshes st) n) /\
  refreshes (schedule env (replicate n Call) st).2 = (refreshes st + n)%nat.
Proof.
  intros Hstale. unfold schedule.
  destruct (calls_while_stale env n [] st Hstale) as (st' & Hrun & Hr & _).
  rewrite Hrun. split; [reflexivity | exact Hr].
Qed.

(** C2 (as the code has it).  The pre-send stage never attaches an
    authorization header and never consults the token manager, whether
    token refresh is enabled or not: it leaves the headers as they are,
    issues no refresh exchange and does not touch the token; it stamps the
    issue time when performance monitoring is enabled and attaches a cancel
    token when cancellation is enabled. *)
Theorem presend_leaves_headers c st :
  headers (requestInterceptors c st).1 = headers c /\
  refreshes (requestInterceptors c st).2 = refreshes st /\
  token (requestInterceptors c st).2 = token st /\
  metadata (requestInterceptors c st).1
    = (if performanceMonitoring (options st)
       then Some {| startTime := now st; endTime := None; duration := None |}
       else metadata c) /\
  cancelToken (requestInterceptors c st).1
    = (if requestCancellation (options st) then Some (nextSource st) else cancelToken c).
Proof.
  assert (H : wp (requestInterceptors c) st (fun c' st' =>
    headers c' = headers c /\ refreshes st' = refreshes st /\ token st' = token st /\
    metadata c' = (if performanceMonitoring (options st)
       then Some {| startTime := now st; endTime := None; duration := None |}
       else metadata c) /\
    cancelToken c' = (if requestCancellation (options st)
                      then Some (nextSource st) else cancelToken c))).
  { wp_unfold. wp_go; unfold refreshes; wp_simpl.
    all: repeat match goal with H : _ = _ |- _ => rewrite H end.
    all: repeat split; reflexivity. }
  exact H.
Qed.

(** ** The properties on concrete runs *)

(** C1 fails as stated: two callers that invoke [getToken()] on a new
    instance before any answer arrives issue two refresh exchanges, and
    each gets the token of its own exchange. *)
Lemma two_callers_two_refreshes :
  (tokenUnusable fresh).1 = true /\
  refreshes (schedule twoGrants [Call; Call; Answer 0; Answer 1] fresh).2 = 2%nat /\
  (schedule twoGrants [Call; Call; Answer 0; Answer 1] fresh).1
  = [Settled (Resolved (Some "T1")); Settled (Resolved (Some "T2"))].
Proof. vm_compute. repeat split; reflexivity. Qed.

(** The theorem of C1 on a run: three callers on a new instance. *)
Lemma concurrent_getToken_refreshes_each_witness :
  (schedule twoGrants (replicate 3 Call) fresh).1
  = [Awaiting 0; Awaiting 1; Awaiting 2] /\
  refreshes (schedule twoGrants (replicate 3 Call) fresh).2 = 3%nat.
Proof.
  apply (concurrent_getToken_refreshes_each twoGrants fresh 3). reflexivity.
Defined.

(** The theorem of C4 on a run: the refresh is granted but the retried
    request is answered 401 again; that second 401 is the outcome. *)
Lemma retry_at_most_once_witness :
  exists e response,
    (handleError lockedServer (errorWith 401) fresh).1 = Rejected e /\
    err_response e = Some response /\ status response = 401.
Proof.
  destruct (retry_at_most_once lockedServer fresh) as (_ & _ & _ & _ & _ & H).
  destruct (H (errorWith 401) _ "T2" 3600 eq_refl eq_refl eq_refl eq_refl)
    as (c' & ms & reply & Ht & _ & Hout).
  injection Ht as <- <-. simpl in Hout.
  eexists _, _. split; [exact Hout|]. split; reflexivity.
Defined.

(** C2 fails as stated: with token refresh enabled and a valid token at
    hand, the pre-send stage hands on a request without an authorization
    header, and the request a [get] dispatches has none either. *)
Lemma presend_without_authorization :
  tokenRefreshEnabled (options authenticated) = true /\
  has_header "Authorization"
    (headers (requestInterceptors dataRequest authenticated).1) = false /\
  dispatches (get okServer "/data" (Some keyValue) noConfig authenticated).2 = 1%nat /\
  never_sent "Authorization"
    (get okServer "/data" (Some keyValue) noConfig authenticated).2 = true.
Proof. vm_compute. repeat split; reflexivity. Qed.

(** C3, on the run of the 401 scenario: the transport answers 401, the
    refresh is granted, the retried request is answered 200 with the
    payload; the call resolves with the whole response envelope and not
    with the payload.  It is so on every run: whatever the error handler
    resolves with is never an unwrapped payload. *)
Theorem retried_get_resolves_with_envelope :
  (exists r, (get recovering "/secure" None noConfig fresh).1 = Resolved (Envelope r) /\
             status r = 200 /\ resp_data r = secret) /\
  (get recovering "/secure" None noConfig fresh).1 <> Resolved (Payload secret) /\
  dispatches (get recovering "/secure" None noConfig fresh).2 = 2%nat /\
  refreshes (get recovering "/secure" None noConfig fresh).2 = 1%nat /\
  token (get recovering "/secure" None noConfig fresh).2 = Some "T2" /\
  (forall env error st v, (handleError env error st).1 <> Resolved (Payload v)).
Proof.
  split; [|split; [|split; [|split; [|split]]]].
  - vm_compute. eexists. split; [reflexivity|]. split; reflexivity.
  - vm_compute. discriminate.
  - vm_compute. reflexivity.
  - vm_compute. reflexivity.
  - vm_compute. reflexivity.
  - intros env error st v. exact (handleError_not_payload env error st v).
Qed.

(** C5 fails as stated: the server answers 200 with the number 0; the same
    [get] one second later, well within the hundred seconds of the cache,
    invokes the transport a second time.  Likewise when the first call
    succeeds through the 401 recovery: nothing is cached, and the same [get]
    one second later goes to the transport again. *)
Lemma falsy_payload_is_fetched_twice :
  cache fresh <> None /\
  1000 < cacheTTL (options fresh) * 1000 /\
  (get zeroServer "/data" (Some keyValue) noConfig fresh).1 = Resolved (Payload (JNum 0)) /\
  (get zeroServer "/data" (Some keyValue) noConfig
     (elapse 1000 (get zeroServer "/data" (Some keyValue) noConfig fresh).2).2).1
  = Resolved (Payload (JNum 0)) /\
  dispatches
    (get zeroServer "/data" (Some keyValue) noConfig
       (elapse 1000 (get zeroServer "/data" (Some keyValue) noConfig fresh).2).2).2
  = 2%nat /\
  (exists r, (get recoveringTwice "/secure" None noConfig fresh).1 = Resolved (Envelope r)) /\
  (get recoveringTwice "/secure" None noConfig
     (elapse 1000 (get recoveringTwice "/secure" None noConfig fresh).2).2).1
  = Resolved (Payload secret) /\
  dispatches
    (get recoveringTwice "/secure" None noConfig
       (elapse 1000 (get recoveringTwice "/secure" None noConfig fresh).2).2).2
  = 3%nat.
Proof.
  split; [discriminate|]. vm_compute.
  repeat split; try reflexivity. eexists; reflexivity.
Qed.

(** The theorem of C5 on a run: a truthy payload, asked for again fifty
    seconds later. *)
Lemma get_twice_within_ttl_witness :
  (get okServer "/data" (Some keyValue) noConfig
     (elapse 50000 (get okServer "/data" (Some keyValue) noConfig fresh).2).2).1
  = Resolved (Payload okPayload) /\
  dispatches
    (get okServer "/data" (Some keyValue) noConfig
       (elapse 50000 (get okServer "/data" (Some keyValue) noConfig fresh).2).2).2
  = 1%nat.
Proof.
  apply (get_twice_within_ttl okServer "/data" (Some keyValue) noConfig noConfig
           fresh okPayload 50000).
  - discriminate.
  - vm_compute. reflexivity.
  - vm_compute. reflexivity.
  - reflexivity.
  - vm_compute. reflexivity.
Defined.

(** C6 fails as stated: after a [get] has resolved, and after one has been
    rejected, the record of the request is still in the registry. *)
Lemma settled_get_is_still_registered :
  (get okServer "/data" (Some keyValue) noConfig fresh).1 = Resolved (Payload okPayload) /\
  pendingRequests (get okServer "/data" (Some keyValue) noConfig fresh).2
    !! getRequestId dataRequest = Some 0%nat /\
  (exists e, (get missingServer "/data" (Some keyValue) noConfig fresh).1 = Rejected e) /\
  pendingRequests (get missingServer "/data" (Some keyValue) noConfig fresh).2
    !! getRequestId dataRequest = Some 0%nat.
Proof.
  vm_compute. split; [reflexivity|]. split; [reflexivity|].
  split; [eexists; reflexivity | reflexivity].
Qed.

(** The theorem of C6 on a run: a request that resolved and a [get] that
    was rejected with 404. *)
Lemma settled_request_stays_registered_witness :
  pendingRequests (customAxios_request okServer dataRequest fresh).2
    !! getRequestId dataRequest = Some 0%nat /\
  is_Some (pendingRequests (get missingServer "/data" (Some keyValue) noConfig fresh).2
             !! getRequestId dataRequest) /\
  pendingRequests
    (customAxios_request_resume dataRequest (10, Canceled "Request canceled by user")
       fresh).2
  = pendingRequests fresh.
Proof.
  destruct (settled_request_stays_registered okServer fresh eq_refl) as (H0 & H1 & _).
  destruct (settled_request_stays_registered missingServer fresh eq_refl) as (_ & _ & H2 & _).
  split; [|split].
  - exact (H1 dataRequest).
  - apply (H2 "/data" (Some keyValue) noConfig). vm_compute. reflexivity.
  - exact (H0 dataRequest (10, Canceled "Request canceled by user")).
Defined.

(** The theorem of C7 on a run: the refresh endpoint answers 500, during
    the recovery of a 401 with a valid token at hand and during a
    [getToken()] on a new instance. *)
Lemma refresh_failure_keeps_token_witness :
  (handleError refusing (errorWith 401) authenticated).1
  = Rejected (deniedError defaultConfig 500 JNull) /\
  token (handleError refusing (errorWith 401) authenticated).2 = Some "T1" /\
  tokenExpiration (handleError refusing (errorWith 401) authenticated).2 = Some 3600000 /\
  (getToken refusing fresh).1 = Rejected (deniedError defaultConfig 500 JNull) /\
  token (getToken refusing fresh).2 = None.
Proof.
  destruct (refresh_failure_keeps_token refusing authenticated
              (deniedError defaultConfig 500 JNull) eq_refl) as (_ & _ & _ & H).
  destruct (H (errorWith 401) _ eq_refl eq_refl eq_refl) as (H1 & H2 & H3 & _).
  destruct (refresh_failure_keeps_token refusing fresh
              (deniedError defaultConfig 500 JNull) eq_refl) as (_ & _ & G & _).
  destruct (G eq_refl) as (G1 & G2 & _).
  repeat split; assumption.
Defined.

(** The theorem of C8 on a run: [get('/missing')] against a server that
    answers 404. *)
Lemma not_found_is_not_recovered_witness :
  (handleError missingServer (errorWith 404) fresh).1 = Rejected (errorWith 404) /\
  (exists e response,
     (get missingServer "/missing" None noConfig fresh).1 = Rejected e /\
     err_response e = Some response /\ status response = 404 /\
     dispatches (get missingServer "/missing" None noConfig fresh).2 = 1%nat /\
     refreshes (get missingServer "/missing" None noConfig fresh).2 = 0%nat).
Proof.
  destruct (not_found_is_not_recovered missingServer fresh) as [H1 H2].
  split.
  - exact (proj1 (H1 (errorWith 404) _ eq_refl eq_refl)).
  - apply (H2 "/missing" None noConfig JNull).
    + intros n c. reflexivity.
    + vm_compute. reflexivity.
Defined.

(** C9 fails as stated: on a new instance the first thing a [get] does is
    to consult the cache, the registration comes second; and the same
    [get] again is answered from the cache without any registry step. *)
Lemma cache_is_consulted_before_the_registry :
  take 2 (history (get okServer "/data" (Some keyValue) noConfig fresh).2)
  = [EvCacheGet (cacheKeyOf "/data" keyValue);
     EvTrack (getRequestId dataRequest) 0] /\
  history (get okServer "/data" (Some keyValue) noConfig
             (get okServer "/data" (Some keyValue) noConfig fresh).2).2
  = (history (get okServer "/data" (Some keyValue) noConfig fresh).2
       ++ [EvCacheGet (cacheKeyOf "/data" keyValue)])%list.
Proof. vm_compute. split; reflexivity. Qed.

(** The theorem of C9 on a run: the second of two requests of the same
    identity, the first of which was rejected and is still registered. *)
Lemma get_order_of_steps_witness :
  exists c' rest,
    history (get okServer "/data" (Some keyValue) noConfig
               (get missingServer "/data" (Some keyValue) noConfig fresh).2).2
    = (history (get missingServer "/data" (Some keyValue) noConfig fresh).2
         ++ EvCacheGet (cacheKeyOf "/data" keyValue)
         :: [EvCancel (getRequestId dataRequest) 0]
         ++ EvTrack (getRequestId dataRequest) 1 :: EvDispatch c' :: rest)%list /\
    getRequestId c' = getRequestId dataRequest /\
    cancelToken c' = Some 1%nat.
Proof.
  apply (get_order_of_steps okServer "/data" (Some keyValue) noConfig
           (get missingServer "/data" (Some keyValue) noConfig fresh).2).
  - discriminate.
  - reflexivity.
  - vm_compute. reflexivity.
Defined.

(** The theorem of C10 on a run: the cache holds the number 0. *)
Lemma falsy_cached_value_is_a_miss_witness :
  (cache_get (cacheKeyOf "/data" keyValue) zeroCached).1 = Some (JNum 0) /\
  (1 <= dispatches (get okServer "/data" (Some keyValue) noConfig zeroCached).2)%nat.
Proof.
  apply (falsy_cached_value_is_a_miss okServer "/data" (Some keyValue) noConfig zeroCached
           {[ cacheKeyOf "/data" keyValue :=
                {| entry_value := JNum 0; insertedAt := 0; ttl := 100 |} ]}
           {| entry_value := JNum 0; insertedAt := 0; ttl := 100 |}).
  - reflexivity.
  - vm_compute. reflexivity.
  - reflexivity.
  - reflexivity.
Defined.

(** ** Further properties of the code *)

(** The pre-send stage and the dispatch, in full: which fields of the
    request change, and what happens to the registry, the cancelled sources
    and the log. *)
Lemma customAxios_request_issue_spec c st :
  wp (customAxios_request_issue c) st (fun r st' =>
    r.1 = dispatches st /\
    (method r.2 = method c /\ url r.2 = url c /\ params r.2 = params c /\
     data r.2 = data c /\ headers r.2 = headers c /\
     cancelPrevious r.2 = cancelPrevious c) /\
    cancelToken r.2 = (if requestCancellation (options st)
                       then Some (nextSource st) else cancelToken c) /\
    metadata r.2 = (if performanceMonitoring (options st)
                    then Some {| startTime := now st; endTime := None; duration := None |}
                    else metadata c) /\
    unchanged st st' /\ now st' = now st /\
    dispatches st' = S (dispatches st) /\ refreshes st' = refreshes st /\
    nextSource st' = (if requestCancellation (options st)
                      then S (nextSource st) else nextSource st) /\
    pendingRequests st' = (if requestCancellation (options st)
                           then <[getRequestId c := nextSource st]> (pendingRequests st)
                           else pendingRequests st) /\
    canceled st' = (if requestCancellation (options st)
                    then cancelled_by c st ++ canceled st else canceled st)%list /\
    events st' = (EvDispatch r.2 ::
                  (if requestCancellation (options st)
                   then EvTrack (getRequestId c) (nextSource st) :: superseded c st
                   else []) ++ events st)%list).
Proof.
  wp_unfold. unfold cancelled_by, superseded, unchanged.
  wp_go; unfold dispatches, refreshes; wp_simpl.
  all: repeat match goal with
       | H : cancelPrevious (set_cancelToken _ _) = _ |- _ => cbn in H
       | H : pendingRequests _ !! getRequestId (set_cancelToken _ _) = _ |- _ =>
           change (getRequestId (set_cancelToken ?n ?c)) with (getRequestId c) in H
       end.
  all: change (getRequestId (set_cancelToken ?n ?c)) with (getRequestId c).
  all: cbn [method url params data headers cancelPrevious cancelToken metadata
            set_metadata set_cancelToken fst snd].
  all: repeat match goal with H : _ = _ |- _ => rewrite H end.
  all: rewrite ?insert_delete_eq.
  all: repeat split; reflexivity.
Qed.

(** What axios fulfils a request with: a status in [200, 300), the body,
    and the request as it was dispatched. *)
Lemma settle_resolved c reply r :
  settle c reply = Resolved r ->
  exists code body,
    reply = Responded code body /\ 200 <= code < 300 /\
    r = {| status := code; resp_data := body; resp_config := c |}.
Proof.
  destruct reply as [code body | message | message]; simpl; try discriminate.
  destruct (200 <=? code) eqn:H1; destruct (code <? 300) eqn:H2; simpl; try discriminate.
  intros [= <-]. exists code, body.
  apply Z.leb_le in H1. apply Z.ltb_lt in H2. auto.
Qed.

Lemma settle_responded c code body :
  200 <= code < 300 ->
  settle c (Responded code body)
  = Resolved {| status := code; resp_data := body; resp_config := c |}.
Proof.
  intros [H1 H2]. simpl.
  apply Z.leb_le in H1. apply Z.ltb_lt in H2. rewrite H1, H2. reflexivity.
Qed.

(** The completion of a request, in full. *)
Lemma customAxios_request_resume_spec c ms reply st :
  wp (customAxios_request_resume c (ms, reply)) st (fun o st' =>
    unchanged st st' /\ now st' = now st + ms /\
    pendingRequests st' = pendingRequests st /\ canceled st' = canceled st /\
    nextSource st' = nextSource st /\
    dispatches st' = dispatches st /\ refreshes st' = refreshes st /\
    match settle c reply with
    | Rejected e => o = Rejected e /\ events st' = events st
    | Resolved r =>
        if performanceMonitoring (options st) then
          match metadata c with
          | Some m =>
              o = Resolved
                    {| status := status r; resp_data := resp_data r;
                       resp_config :=
                         set_metadata {| startTime := startTime m;
                                         endTime := Some (now st + ms);
                                         duration := Some (now st + ms - startTime m) |} c |} /\
              events st' = EvConsoleLog ("Request duration: "
                                         +:+ pretty (now st + ms - startTime m) +:+ "ms")
                           :: events st
          | None =>
              o = Resolved r /\
              events st' = EvConsoleLog "Request duration: NaNms" :: events st
          end
        else o = Resolved r /\ events st' = events st
    end).
Proof.
  unfold customAxios_request_resume, responseInterceptors, logDuration,
    console_log, emit, elapse, unchanged.
  destruct (settle c reply) as [r | e] eqn:Hs.
  - destruct (settle_resolved _ _ _ Hs) as (code & body & -> & _ & ->).
    wp_go; unfold dispatches, refreshes; wp_simpl;
      cbn [resp_config status resp_data] in *;
      repeat match goal with H : _ = _ |- _ => rewrite H end;
      repeat split; reflexivity.
  - wp_go; unfold dispatches, refreshes; wp_simpl; repeat split; reflexivity.
Qed.

(** The sequential request is its issue followed by its completion with
    the answer of the environment. *)
Lemma customAxios_request_split env c st :
  customAxios_request env c st
  = customAxios_request_resume (customAxios_request_issue c st).1.2
      (transport env (customAxios_request_issue c st).1.1
                     (customAxios_request_issue c st).1.2)
      (customAxios_request_issue c st).2.
Proof.
  unfold customAxios_request, bind.
  destruct (customAxios_request_issue c st) as [[n c'] s]. reflexivity.
Qed.

(** A granted refresh, in full. *)
Lemma refreshToken_granted env st ms newToken expiresIn :
  refreshEndpoint env (refreshes st) = (ms, Granted newToken expiresIn) ->
  refreshToken env st
  = (Resolved tt,
     set_tokenExpiration (Some (now st + ms + expiresIn * 1000))
       (set_token (Some newToken)
          (set_now (now st + ms)
             (set_events (EvRefreshPost (refreshTokenURL (options st)) :: events st) st)))).
Proof.
  intros H. unfold refreshToken, refreshToken_issue, refreshToken_resume,
    emit, elapse, bind, gets, modify, ret.
  cbn [fst snd]. change (length (List.filter is_refresh (events st))) with (refreshes st).
  rewrite H. reflexivity.
Qed.

(** X1.  Only a 401 with token refresh enabled is recovered.  On every
    other error (another status, a 401 with token refresh disabled, no
    response, a cancelled or malformed request) the error handler rejects
    with the very error it was given and changes nothing but the console:
    no dispatch, no refresh exchange, the same cache, registry and token. *)
Theorem handleError_passes_on env error st :
  recoverable (options st) error = false ->
  (handleError env error st).1 = Rejected error /\
  exists lines,
    (handleError env error st).2
    = set_events (map EvConsoleError lines ++ events st)%list st.
Proof.
  unfold recoverable, handleError, console_error, emit, bind, gets, modify, ret.
  destruct (err_response error) as [response|]; cbn [fst snd].
  - intros ->.
    destruct (status response =? 404); cbn [fst snd].
    + split; [reflexivity|]. exists ["Resource not found:"]. reflexivity.
    + split; [reflexivity|]. exists ["Error status:"; "Error data:"]. reflexivity.
  - intros _. destruct (err_request error); cbn [fst snd].
    + split; [reflexivity|]. exists ["Error request:"]. reflexivity.
    + split; [reflexivity|]. exists ["Error message:"]. reflexivity.
Qed.

(** The theorem of X1 on a run: a 500 answer, and a 401 on an instance
    with token refresh disabled. *)
Lemma handleError_passes_on_witness :
  (handleError okServer (errorWith 500) fresh).1 = Rejected (errorWith 500) /\
  (handleError lockedServer (errorWith 401) (construct tokenRefreshOff 0)).1
  = Rejected (errorWith 401).
Proof.
  split.
  - apply (handleError_passes_on okServer (errorWith 500) fresh). reflexivity.
  - apply (handleError_passes_on lockedServer (errorWith 401) (construct tokenRefreshOff 0)).
    reflexivity.
Defined.




Lemma superseded_not_dispatch c st :
  omap (fun e => match e with EvDispatch c => Some c | _ => None end) (superseded c st) = [].
Proof.
  unfold superseded.
  destruct (cancelPrevious c) as [[|]|];
    destruct (pendingRequests st !! getRequestId c); reflexivity.
Qed.


(** One pass through the axios instance hands exactly one request to the
    transport, the one it was given up to the cancel token and the timing
    metadata; an error it rejects with carries that request. *)
Lemma customAxios_request_dispatched env c st :
  wp (customAxios_request env c) st (fun o st' =>
    exists c', dispatched st' = c' :: dispatched st /\ same_request c' c /\
               forall e, o = Rejected e -> err_config e = c').
Proof.
  unfold wp. rewrite customAxios_request_split.
  pose proof (customAxios_request_issue_spec c st) as Hi. unfold wp in Hi.
  destruct (customAxios_request_issue c st) as [[n c'] s1]. cbn [fst snd] in *.
  destruct Hi as (_ & Hsame & _ & _ & _ & _ & _ & _ & _ & _ & _ & Hev).
  destruct (transport env n c') as [ms reply].
  pose proof (customAxios_request_resume_spec c' ms reply s1) as Hr. unfold wp in Hr.
  destruct (customAxios_request_resume c' (ms, reply) s1) as [o s2]. cbn [fst snd] in *.
  destruct Hr as (_ & _ & _ & _ & _ & _ & _ & Hr).
  assert (Hd1 : dispatched s1 = c' :: dispatched st).
  { unfold dispatched. rewrite Hev. cbn [omap list_omap].
    destruct (requestCancellation (options st)).
    - cbn [app omap list_omap]. rewrite omap_app, superseded_not_dispatch. reflexivity.
    - reflexivity. }
  exists c'. split; [|split; [exact Hsame|]].
  - destruct (settle c' reply) as [r | e].
    + destruct (performanceMonitoring (options s1)); [destruct (metadata c')|];
        destruct Hr as [_ Hev2]; unfold dispatched in *; rewrite Hev2; exact Hd1.
    + destruct Hr as [_ Hev2]. unfold dispatched in *. rewrite Hev2. exact Hd1.
  - intros e ->. destruct (settle c' reply) as [r | e'] eqn:Hs.
    + destruct (performanceMonitoring (options s1)); [destruct (metadata c')|];
        destruct Hr as [Ho _]; discriminate.
    + destruct Hr as [[= <-] _]. exact (settle_err_config _ _ _ Hs).
Qed.

(** A refresh exchange dispatches nothing through the instance, prints no
    [console.log] line and leaves cache, registry and cancel sources alone. *)
Lemma refreshToken_frame env st :
  wp (refreshToken env) st (fun _ st' =>
    dispatched st' = dispatched st /\ console_lines st' = console_lines st /\
    cache st' = cache st /\ options st' = options st /\
    pendingRequests st' = pendingRequests st /\ canceled st' = canceled st /\
    nextSource st' = nextSource st).
Proof.
  wp_unfold. wp_go; unfold dispatched, console_lines; wp_simpl; repeat split; reflexivity.
Qed.

Lemma same_request_refl c : same_request c c.
Proof. unfold same_request. repeat split; reflexivity. Qed.

Lemma same_request_trans c1 c2 c3 :
  same_request c1 c2 -> same_request c2 c3 -> same_request c1 c3.
Proof.
  unfold same_request. intros (?&?&?&?&?&?) (?&?&?&?&?&?).
  repeat split; congruence.
Qed.

(** The error handler dispatches nothing, or the one retry, which is the
    failed request again. *)
Lemma handleError_dispatched env error st :
  wp (handleError env error) st (fun _ st' =>
    exists later, dispatched st' = (later ++ dispatched st)%list /\
      (length later <= 1)%nat /\
      forall c', In c' later -> same_request c' (err_config error)).
Proof.
  unfold handleError, console_error, emit.
  wp_go.
  all: try (exists []; unfold dispatched; wp_simpl;
            split; [reflexivity|]; split; [simpl; lia|]; intros c' []).
  eapply wp_use; [apply refreshToken_frame|].
  intros o st1 (Hd & _). unfold dispatched in Hd; wp_simpl. cbn [omap list_omap] in Hd.
  wp_go.
  - eapply wp_use; [apply customAxios_request_dispatched|].
    intros o2 st2 (c' & Hd2 & Hsame & _).
    assert (Hall : dispatched st2 = ([c'] ++ dispatched st)%list).
    { rewrite Hd2. unfold dispatched at 1. rewrite Hd. reflexivity. }
    wp_go.
    + exists [c']. split; [exact Hall|]. split; [simpl; lia|].
      intros c2 [<- | []]. exact Hsame.
    + exists [c']. unfold dispatched in *. wp_simpl. cbn [omap list_omap].
      split; [exact Hall|]. split; [simpl; lia|].
      intros c2 [<- | []]. exact Hsame.
  - exists []. unfold dispatched. wp_simpl. cbn [omap list_omap].
    split; [exact Hd|]. split; [simpl; lia|]. intros c' [].
Qed.

(** The shape the four verb methods share: one request through the axios
    instance, then the success continuation or the error handler. *)
Lemma verb_dispatched env c st (k : Response -> M (Outcome JsValue)) :
  (forall resp s, wp (k resp) s (fun _ s' => dispatched s' = dispatched s)) ->
  wp (let* r := customAxios_request env c in
      match r with
      | Resolved response => k response
      | Rejected error => handleError env error
      end) st (fun _ st' =>
    exists c1 later,
      dispatched st' = (later ++ c1 :: dispatched st)%list /\
      same_request c1 c /\ (length later <= 1)%nat /\
      forall c2, In c2 later -> same_request c2 c).
Proof.
  intros Hk. apply wp_bind.
  eapply wp_use; [apply customAxios_request_dispatched|].
  intros o s1 (c1 & Hd1 & Hsame & Herr).
  destruct o as [response | error].
  - eapply wp_use; [apply Hk|]. intros o' s2 Hd2.
    exists c1, []. rewrite Hd2, Hd1.
    split; [reflexivity|]. split; [exact Hsame|]. split; [simpl; lia|]. intros c2 [].
  - eapply wp_use; [apply handleError_dispatched|].
    intros o' s2 (later & Hd2 & Hlen & Hlater).
    exists c1, later. rewrite Hd2, Hd1.
    split; [reflexivity|]. split; [exact Hsame|]. split; [exact Hlen|].
    intros c2 Hin. eapply same_request_trans; [apply Hlater, Hin|].
    rewrite (Herr error eq_refl). exact Hsame.
Qed.

Lemma cache_get_dispatched key st :
  wp (cache_get key) st (fun _ st' => dispatched st' = dispatched st).
Proof.
  unfold cache_get, emit. wp_go; unfold dispatched; wp_simpl; reflexivity.
Qed.

Lemma cache_set_dispatched key v st :
  wp (cache_set key v) st (fun _ st' => dispatched st' = dispatched st).
Proof.
  unfold cache_set, emit. wp_go; unfold dispatched; wp_simpl; reflexivity.
Qed.

Lemma get_fetch_dispatched env u ps cfg st :
  wp (get_fetch env u ps cfg) st (fun _ st' =>
    exists c1 later,
      dispatched st' = (later ++ c1 :: dispatched st)%list /\
      same_request c1 (mkRequest (options st) "get" u (Some ps) None cfg) /\
      (length later <= 1)%nat /\
      forall c2, In c2 later ->
        same_request c2 (mkRequest (options st) "get" u (Some ps) None cfg)).
Proof.
  unfold get_fetch. apply wp_bind, wp_gets.
  apply verb_dispatched. intros resp s. wp_go.
  eapply wp_use; [apply cache_set_dispatched|]. intros [] s' H. wp_go. exact H.
Qed.

(** X3.  Every request a verb call hands to the transport, the original
    one and the retry after a 401 if there is one, is the request built
    from the arguments of the call: the verb's method, the url, the
    parameters, the body, and the headers of the instance followed by those
    of the call.  In particular the retry does not carry the refreshed
    token.  A [get] answered from the cache hands over nothing. *)
Theorem verbs_dispatch_what_they_are_given env st :
  (forall u d cfg, exists c1 later,
     dispatched (post env u d cfg st).2 = (later ++ c1 :: dispatched st)%list /\
     (length later <= 1)%nat /\
     forall c, In c (later ++ [c1]) ->
       same_request c (mkRequest (options st) "post" u (call_params cfg) d cfg)) /\
  (forall u d cfg, exists c1 later,
     dispatched (put env u d cfg st).2 = (later ++ c1 :: dispatched st)%list /\
     (length later <= 1)%nat /\
     forall c, In c (later ++ [c1]) ->
       same_request c (mkRequest (options st) "put" u (call_params cfg) d cfg)) /\
  (forall u cfg, exists c1 later,
     dispatched (AxiosService.delete env u cfg st).2 = (later ++ c1 :: dispatched st)%list /\
     (length later <= 1)%nat /\
     forall c, In c (later ++ [c1]) ->
       same_request c (mkRequest (options st) "delete" u (call_params cfg) None cfg)) /\
  (forall u ps cfg,
     dispatched (get env u ps cfg st).2 = dispatched st \/
     exists c1 later,
       dispatched (get env u ps cfg st).2 = (later ++ c1 :: dispatched st)%list /\
       (length later <= 1)%nat /\
       forall c, In c (later ++ [c1]) ->
         same_request c (mkRequest (options st) "get" u
                           (Some (default (JObj []) ps)) None cfg)).
Proof.
  assert (Hpack : forall (c0 : RequestConfig) st' ,
    (exists c1 later,
      dispatched st' = (later ++ c1 :: dispatched st)%list /\
      same_request c1 c0 /\ (length later <= 1)%nat /\
      forall c2, In c2 later -> same_request c2 c0) ->
    exists c1 later,
      dispatched st' = (later ++ c1 :: dispatched st)%list /\
      (length later <= 1)%nat /\
      forall c, In c (later ++ [c1]) -> same_request c c0).
  { intros c0 st' (c1 & later & Hd & H1 & Hlen & Hl).
    exists c1, later. split; [exact Hd|]. split; [exact Hlen|].
    intros c Hin. apply in_app_or in Hin. destruct Hin as [Hin | [<- | []]]; auto. }
  split; [|split; [|split]].
  - intros u d cfg. apply Hpack.
    assert (H : wp (post env u d cfg) st (fun _ st' => exists c1 later,
      dispatched st' = (later ++ c1 :: dispatched st)%list /\
      same_request c1 (mkRequest (options st) "post" u (call_params cfg) d cfg) /\
      (length later <= 1)%nat /\
      forall c2, In c2 later ->
        same_request c2 (mkRequest (options st) "post" u (call_params cfg) d cfg))).
    { unfold post. apply wp_bind, wp_gets.
      apply verb_dispatched. intros resp s. wp_go. reflexivity. }
    exact H.
  - intros u d cfg. apply Hpack.
    assert (H : wp (put env u d cfg) st (fun _ st' => exists c1 later,
      dispatched st' = (later ++ c1 :: dispatched st)%list /\
      same_request c1 (mkRequest (options st) "put" u (call_params cfg) d cfg) /\
      (length later <= 1)%nat /\
      forall c2, In c2 later ->
        same_request c2 (mkRequest (options st) "put" u (call_params cfg) d cfg))).
    { unfold put. apply wp_bind, wp_gets.
      apply verb_dispatched. intros resp s. wp_go. reflexivity. }
    exact H.
  - intros u cfg. apply Hpack.
    assert (H : wp (AxiosService.delete env u cfg) st (fun _ st' => exists c1 later,
      dispatched st' = (later ++ c1 :: dispatched st)%list /\
      same_request c1 (mkRequest (options st) "delete" u (call_params cfg) None cfg) /\
      (length later <= 1)%nat /\
      forall c2, In c2 later ->
        same_request c2 (mkRequest (options st) "delete" u (call_params cfg) None cfg))).
    { unfold AxiosService.delete. apply wp_bind, wp_gets.
      apply verb_dispatched. intros resp s. wp_go. reflexivity. }
    exact H.
  - intros u ps cfg.
    set (key := cacheKeyOf u (default (JObj []) ps)).
    pose proof (cache_get_dispatched key st) as Hg. unfold wp in Hg.
    pose proof (cache_get_spec key st) as Hs. unfold wp in Hs.
    destruct Hs as ((Ho & _) & _).
    destruct (get_cases env u ps cfg st) as [(v0 & _ & _ & Hget) | (_ & Hget)];
      fold key in Hget; rewrite Hget.
    + left. exact Hg.
    + right. apply Hpack. rewrite <- Hg, <- Ho.
      exact (get_fetch_dispatched env u (default (JObj []) ps) cfg (cache_get key st).2).
Qed.

(** A request the transport answers with a status in [200, 300) is
    fulfilled with that status and body. *)
Lemma customAxios_request_fulfilled env c st ms code body :
  (forall c', transport env (dispatches st) c' = (ms, Responded code body)) ->
  200 <= code < 300 ->
  wp (customAxios_request env c) st (fun o st' =>
    (exists r, o = Resolved r /\ status r = code /\ resp_data r = body) /\
    unchanged st st' /\ now st' = now st + ms /\
    dispatches st' = S (dispatches st) /\ refreshes st' = refreshes st).
Proof.
  intros Hans Hcode.
  eapply wp_use; [apply customAxios_request_spec|].
  intros o st' (Hu & Hd & Hr & _ & c' & ms' & reply & Ht & Hn & _ & Ho).
  rewrite Hans in Ht. injection Ht as <- <-.
  rewrite (settle_responded c' code body Hcode) in Ho.
  split; [|auto].
  destruct o as [r | e].
  - destruct Ho as (r0 & [= <-] & H1 & H2). exists r. auto.
  - discriminate.
Qed.

(** X4.  A call the transport answers with a status in [200, 300) resolves
    with the body of the answer, unwrapped, after exactly one dispatch and
    without a refresh exchange: [post], [put] and [delete] always, [get]
    when the cache has no truthy value for the request; the [get] then
    stores that body in the cache (if there is one) under the key of the
    request. *)
Theorem direct_success_unwraps env st ms code body :
  (forall c, transport env (dispatches st) c = (ms, Responded code body)) ->
  200 <= code < 300 ->
  (forall u d cfg,
     (post env u d cfg st).1 = Resolved (Payload body) /\
     dispatches (post env u d cfg st).2 = S (dispatches st) /\
     refreshes (post env u d cfg st).2 = refreshes st) /\
  (forall u d cfg,
     (put env u d cfg st).1 = Resolved (Payload body) /\
     dispatches (put env u d cfg st).2 = S (dispatches st) /\
     refreshes (put env u d cfg st).2 = refreshes st) /\
  (forall u cfg,
     (AxiosService.delete env u cfg st).1 = Resolved (Payload body) /\
     dispatches (AxiosService.delete env u cfg st).2 = S (dispatches st) /\
     refreshes (AxiosService.delete env u cfg st).2 = refreshes st) /\
  (forall u ps cfg,
     truthy_opt (cache_get (cacheKeyOf u (default (JObj []) ps)) st).1 = false ->
     (get env u ps cfg st).1 = Resolved (Payload body) /\
     dispatches (get env u ps cfg st).2 = S (dispatches st) /\
     refreshes (get env u ps cfg st).2 = refreshes st /\
     cache (get env u ps cfg st).2
     = (fun store => <[cacheKeyOf u (default (JObj []) ps) :=
                         {| entry_value := body; insertedAt := now st + ms;
                            ttl := cacheTTL (options st) |}]> store) <$> cache st).
Proof.
  intros Hans Hcode.
  assert (Hverb : forall c,
    wp (let* r := customAxios_request env c in
        match r with
        | Resolved response => ret (Resolved (handleSuccess response))
        | Rejected error => handleError env error
        end) st (fun o st' =>
      o = Resolved (Payload body) /\ dispatches st' = S (dispatches st) /\
      refreshes st' = refreshes st)).
  { intros c. apply wp_bind.
    eapply wp_use; [apply (customAxios_request_fulfilled env c st ms code body Hans Hcode)|].
    intros o st' ((r & -> & _ & Hb) & _ & _ & Hd & Hr).
    wp_go. unfold handleSuccess. rewrite Hb. auto. }
  split; [|split; [|split]].
  - intros u d cfg. exact (Hverb _).
  - intros u d cfg. exact (Hverb _).
  - intros u cfg. exact (Hverb _).
  - intros u ps cfg Hmiss.
    set (key := cacheKeyOf u (default (JObj []) ps)) in *.
    pose proof (cache_get_spec key st) as Hs. unfold wp in Hs.
    destruct Hs as ((Ho & Hc & _) & _ & _ & Hn & Hd0 & Hr0 & _).
    destruct (get_cases env u ps cfg st) as [(v0 & Hv0 & Ht0 & _) | (_ & Hget)];
      fold key in Hv0 || fold key in Hget.
    + rewrite Hv0 in Hmiss. simpl in Hmiss. congruence.
    + rewrite Hget.
      assert (Hans0 : forall c, transport env (dispatches (cache_get key st).2) c
                                = (ms, Responded code body)).
      { intros c. rewrite Hd0. apply Hans. }
      assert (H : wp (get_fetch env u (default (JObj []) ps) cfg) (cache_get key st).2
        (fun o st' =>
           o = Resolved (Payload body) /\
           dispatches st' = S (dispatches st) /\ refreshes st' = refreshes st /\
           cache st' = (fun store => <[key := {| entry_value := body;
                                                  insertedAt := now st + ms;
                                                  ttl := cacheTTL (options st) |}]> store)
                       <$> cache st)).
      { unfold get_fetch. wp_go.
        eapply wp_use; [apply (customAxios_request_fulfilled env _ _ ms code body Hans0 Hcode)|].
        intros o s1 ((r & -> & _ & Hb) & (Ho1 & Hc1 & _) & Hn1 & Hd1 & Hr1).
        wp_go. eapply wp_use; [apply cache_set_spec|].
        intros [] s2 (_ & _ & _ & Hd2 & Hr2 & _ & Hc2). wp_go.
        unfold handleSuccess. rewrite Hb.
        split; [reflexivity|]. split; [congruence|]. split; [congruence|].
        rewrite Hc2, Hc1, Hc, Ho1, Ho, Hn1, Hn, Hb. fold key.
        destruct (cache st); reflexivity. }
      exact H.
Qed.

(** The theorem of X4 on a run: a [post] and a first [get] against a
    server that answers 200. *)
Lemma direct_success_unwraps_witness :
  (post okServer "/items" (Some keyValue) noConfig fresh).1 = Resolved (Payload okPayload) /\
  (get okServer "/data" (Some keyValue) noConfig fresh).1 = Resolved (Payload okPayload).
Proof.
  destruct (direct_success_unwraps okServer fresh 10 200 okPayload
              (fun c => eq_refl) ltac:(lia)) as (Hpost & _ & _ & Hget).
  split.
  - exact (proj1 (Hpost "/items" (Some keyValue) noConfig)).
  - apply (Hget "/data" (Some keyValue) noConfig). vm_compute. reflexivity.
Defined.

(** A quantity that the axios instance, the refresh and the console leave
    alone (in the states that satisfy a guard the quantity determines) is
    left alone by the error handler and by the shape the verb methods
    share. *)
Lemma handleError_preserves {B} (f : State -> B) (g : State -> Prop) env error st :
  (forall s s', f s' = f s -> g s -> g s') ->
  (forall c s, g s -> f (customAxios_request env c s).2 = f s) ->
  (forall s, g s -> f (refreshToken env s).2 = f s) ->
  (forall l s, f (set_events l s) = f s) ->
  g st -> f (handleError env error st).2 = f st.
Proof.
  intros Hg Hreq Href Hlog Hst.
  assert (H : wp (handleError env error) st (fun _ st' => f st' = f st)).
  { unfold handleError, console_error, emit. wp_go; try (rewrite !Hlog; reflexivity).
    unfold wp at 1.
    set (st0 := set_events _ st).
    assert (H0 : f st0 = f st) by apply Hlog.
    assert (G0 : g st0) by (eapply Hg; eauto).
    pose proof (Href st0 G0) as H1.
    destruct (refreshToken env st0) as [o st1]. cbn [fst snd] in *.
    assert (G1 : g st1) by (eapply Hg; eauto).
    wp_go.
    - unfold wp at 1. pose proof (Hreq (err_config error) st1 G1) as H2.
      destruct (customAxios_request env (err_config error) st1) as [o2 st2].
      cbn [fst snd] in *. wp_go; [congruence|]. rewrite Hlog. congruence.
    - rewrite Hlog. congruence. }
  exact H.
Qed.


Lemma customAxios_request_cache env c st :
  cache (customAxios_request env c st).2 = cache st.
Proof.
  pose proof (customAxios_request_spec env c st) as H. unfold wp in H.
  destruct H as ((_ & H & _) & _). exact H.
Qed.

Lemma refreshToken_cache env st : cache (refreshToken env st).2 = cache st.
Proof.
  pose proof (refreshToken_frame env st) as H. unfold wp in H.
  destruct H as (_ & _ & H & _). exact H.
Qed.


(** The cache after the [try] block of [get]: untouched, or extended by
    the payload the call resolved with. *)
Lemma get_fetch_cache env u ps cfg st :
  wp (get_fetch env u ps cfg) st (fun o st' =>
    cache st' = cache st \/
    exists v store,
      o = Resolved (Payload v) /\ cache st = Some store /\
      cache st' = Some (<[cacheKeyOf u ps := {| entry_value := v; insertedAt := now st';
                                                ttl := cacheTTL (options st) |}]> store)).
Proof.
  unfold get_fetch. wp_go.
  eapply wp_use; [apply customAxios_request_spec|].
  intros o s1 ((Ho1 & Hc1 & _) & _).
  destruct o as [r | e].
  - wp_go. eapply wp_use; [apply cache_set_spec|].
    intros [] s2 (_ & Hn2 & _ & _ & _ & _ & Hc2). wp_go.
    rewrite Hc2, Hc1, Hn2, Ho1.
    destruct (cache st) as [store|].
    + right. exists (resp_data r), store. auto.
    + left. reflexivity.
  - unfold wp. left.
    rewrite (handleError_preserves cache (fun _ => True) env e s1); auto.
    + intros c0 s _. apply customAxios_request_cache.
    + intros s _. apply refreshToken_cache.
Qed.

(** X6.  A [get] writes to the cache only when the transport answers it
    directly: either the cache is exactly what it was, or the call resolved
    with a payload and the cache has gained that payload under the key of
    the request, stamped with the time of the answer and the time to live
    of the instance.  So a rejected [get], and a [get] that succeeds
    through the 401 recovery, leave the cache alone. *)
Theorem get_writes_cache_on_direct_success env u ps cfg st :
  cache (get env u ps cfg st).2 = cache st \/
  exists v store,
    (get env u ps cfg st).1 = Resolved (Payload v) /\
    cache st = Some store /\
    cache (get env u ps cfg st).2
    = Some (<[cacheKeyOf u (default (JObj []) ps) :=
               {| entry_value := v; insertedAt := now (get env u ps cfg st).2;
                  ttl := cacheTTL (options st) |}]> store).
Proof.
  set (key := cacheKeyOf u (default (JObj []) ps)).
  pose proof (cache_get_spec key st) as Hs. unfold wp in Hs.
  destruct Hs as ((Ho & Hc & _) & _).
  destruct (get_cases env u ps cfg st) as [(v0 & _ & _ & Hget) | (_ & Hget)];
    fold key in Hget; rewrite Hget.
  - left. exact Hc.
  - pose proof (get_fetch_cache env u (default (JObj []) ps) cfg (cache_get key st).2) as H.
    unfold wp in H. fold key in H. rewrite Hc, Ho in H. exact H.
Qed.

(** X7.  On an instance without a cache every [get] goes to the transport,
    and the instance still has no cache afterwards. *)
Theorem get_without_cache env u ps cfg st :
  cache st = None ->
  (S (dispatches st) <= dispatches (get env u ps cfg st).2)%nat /\
  cache (get env u ps cfg st).2 = None.
Proof.
  intros Hnone.
  set (key := cacheKeyOf u (default (JObj []) ps)).
  pose proof (cache_get_spec key st) as Hs. unfold wp in Hs.
  destruct Hs as ((_ & Hc & _) & _ & _ & _ & Hd & _).
  assert (Hlook : (cache_get key st).1 = Some JNull).
  { unfold cache_get, bind, gets, ret. rewrite Hnone. reflexivity. }
  destruct (get_cases env u ps cfg st) as [(v0 & Hv0 & Ht0 & _) | (_ & Hget)];
    fold key in Hv0 || fold key in Hget.
  - rewrite Hlook in Hv0. injection Hv0 as <-. discriminate.
  - rewrite Hget.
    pose proof (get_fetch_spec env u (default (JObj []) ps) cfg (cache_get key st).2) as Hf.
    pose proof (get_fetch_cache env u (default (JObj []) ps) cfg (cache_get key st).2) as Hw.
    unfold wp in Hf, Hw. destruct Hf as (Hlow & _).
    split; [lia|].
    destruct Hw as [Hw | (v & store & _ & Hsome & _)]; congruence.
Qed.


(** [getToken] when it has to refresh and the refresh is granted. *)
Lemma getToken_granted env st ms newToken expiresIn :
  (tokenUnusable st).1 = true ->
  refreshEndpoint env (refreshes st) = (ms, Granted newToken expiresIn) ->
  getToken env st
  = (Resolved (Some newToken),
     set_tokenExpiration (Some (now st + ms + expiresIn * 1000))
       (set_token (Some newToken)
          (set_now (now st + ms)
             (set_events (EvRefreshPost (refreshTokenURL (options st)) :: events st) st)))).
Proof.
  intros Hstale Hgrant. unfold getToken, bind at 1.
  rewrite tokenUnusable_reads in Hstale |- *. cbn [fst snd] in Hstale. rewrite Hstale.
  unfold bind at 1.
  rewrite (refreshToken_granted env st ms newToken expiresIn Hgrant). reflexivity.
Qed.

Lemma noToken_nonempty tok : tok <> "" -> noToken (Some tok) = false.
Proof. intros H. simpl. apply String.eqb_neq. exact H. Qed.

(** When the token is usable [getToken] hands it out and does nothing
    else. *)
Lemma getToken_fresh env st :
  (tokenUnusable st).1 = false -> getToken env st = (Resolved (token st), st).
Proof.
  intros Hfresh. unfold getToken, bind at 1.
  rewrite tokenUnusable_reads in Hfresh |- *. cbn [fst snd] in Hfresh.
  rewrite Hfresh. reflexivity.
Qed.

(** A non-empty token before its expiry is usable. *)
Lemma tokenUnusable_false st tok expiry :
  token st = Some tok -> tok <> "" ->
  tokenExpiration st = Some expiry -> now st < expiry ->
  (tokenUnusable st).1 = false.
Proof.
  intros Ht Hne Hx Hlt.
  rewrite tokenUnusable_reads, Ht, Hx, (noToken_nonempty tok Hne).
  cbn [orb fst snd]. apply Z.leb_gt. exact Hlt.
Qed.


(** X9.  [getToken] with a non-empty token that has not reached its expiry
    returns that token at once: no refresh exchange, no change of state.
    The refresh threshold plays no part; a token about to expire is
    returned like any other. *)
Theorem getToken_returns_usable_token env st tok expiry :
  token st = Some tok -> tok <> "" ->
  tokenExpiration st = Some expiry -> now st < expiry ->
  getToken env st = (Resolved (Some tok), st).
Proof.
  intros Ht Hne Hx Hlt.
  rewrite (getToken_fresh env st (tokenUnusable_false st tok expiry Ht Hne Hx Hlt)).
  rewrite Ht. reflexivity.
Qed.

(** X10.  A granted token is reused until it expires: when [getToken] had
    to refresh and was granted a non-empty token, it returns that token,
    and a second [getToken] issued before the granted lifetime has passed
    returns the same token without a refresh exchange or any change of
    state. *)
Theorem getToken_reuses_granted_token env st ms tok expiresIn dt :
  (tokenUnusable st).1 = true ->
  refreshEndpoint env (refreshes st) = (ms, Granted tok expiresIn) ->
  tok <> "" -> dt < expiresIn * 1000 ->
  (getToken env st).1 = Resolved (Some tok) /\
  refreshes (getToken env st).2 = S (refreshes st) /\
  getToken env (elapse dt (getToken env st).2).2
  = (Resolved (Some tok), (elapse dt (getToken env st).2).2).
Proof.
  intros Hstale Hgrant Hne Hdt.
  rewrite (getToken_granted env st ms tok expiresIn Hstale Hgrant). cbn [fst snd].
  split; [reflexivity|]. split; [reflexivity|].
  rewrite getToken_fresh; [reflexivity|].
  apply (tokenUnusable_false _ tok (now st + ms + expiresIn * 1000));
    [reflexivity | exact Hne | reflexivity |].
  cbn. lia.
Qed.


(** X12.  Two requests of the same identity in flight, with cancellation
    enabled: issuing the second replaces the record of the first in the
    registry by its own.  Unless the second opted out with
    [cancelPrevious: false] the cancel source of the first is cancelled on
    the way; if it opted out, no source is cancelled, and the first request
    can no longer be reached through the registry. *)
Theorem duplicate_in_flight c1 c2 st :
  requestCancellation (options st) = true ->
  getRequestId c2 = getRequestId c1 ->
  let first := customAxios_request_issue c1 st in
  let second := customAxios_request_issue c2 first.2 in
  cancelToken first.1.2 = Some (nextSource st) /\
  cancelToken second.1.2 = Some (S (nextSource st)) /\
  pendingRequests second.2 !! getRequestId c1 = Some (S (nextSource st)) /\
  (cancelPrevious c2 <> Some false ->
     canceled second.2 = nextSource st :: canceled first.2) /\
  (cancelPrevious c2 = Some false -> canceled second.2 = canceled first.2).
Proof.
  intros Hrc Hid first second.
  pose proof (customAxios_request_issue_spec c1 st) as H1. unfold wp in H1.
  fold first in H1. rewrite Hrc in H1.
  destruct H1 as (_ & _ & Htok1 & _ & (Ho1 & _) & _ & _ & _ & Hn1 & Hp1 & _).
  pose proof (customAxios_request_issue_spec c2 first.2) as H2. unfold wp in H2.
  fold second in H2. rewrite Ho1, Hrc, Hn1 in H2.
  destruct H2 as (_ & _ & Htok2 & _ & _ & _ & _ & _ & _ & Hp2 & Hc2 & _).
  assert (Hreg : pendingRequests first.2 !! getRequestId c2 = Some (nextSource st)).
  { rewrite Hp1, Hid. apply lookup_insert_eq. }
  split; [exact Htok1|]. split; [exact Htok2|]. split.
  - rewrite Hp2, Hid. apply lookup_insert_eq.
  - unfold cancelled_by in Hc2. rewrite Hreg in Hc2. split.
    + intros Hopt. rewrite Hc2.
      destruct (cancelPrevious c2) as [[|]|]; [reflexivity | congruence | reflexivity].
    + intros Hopt. rewrite Hc2, Hopt. reflexivity.
Qed.

(** A property of states that the axios instance, the refresh and the
    console keep is kept by the error handler and by the shape the verb
    methods share. *)
Lemma handleError_invariant (P : State -> Prop) env error st :
  (forall c s, P s -> P (customAxios_request env c s).2) ->
  (forall s, P s -> P (refreshToken env s).2) ->
  (forall l s, P s -> P (set_events l s)) ->
  P st -> P (handleError env error st).2.
Proof.
  intros Hreq Href Hlog Hst.
  assert (H : wp (handleError env error) st (fun _ st' => P st')).
  { unfold handleError, console_error, emit. wp_go; try (repeat apply Hlog; exact Hst).
    unfold wp at 1.
    set (st0 := set_events _ st).
    assert (G0 : P st0) by (apply Hlog; exact Hst).
    pose proof (Href st0 G0) as G1.
    destruct (refreshToken env st0) as [o st1]. cbn [fst snd] in *.
    wp_go.
    - unfold wp at 1. pose proof (Hreq (err_config error) st1 G1) as G2.
      destruct (customAxios_request env (err_config error) st1) as [o2 st2].
      cbn [fst snd] in *. wp_go; [exact G2|]. apply Hlog. exact G2.
    - apply Hlog. exact G1. }
  exact H.
Qed.

Lemma verb_invariant (P : State -> Prop) env c st (k : Response -> M (Outcome JsValue)) :
  (forall c s, P s -> P (customAxios_request env c s).2) ->
  (forall s, P s -> P (refreshToken env s).2) ->
  (forall l s, P s -> P (set_events l s)) ->
  (forall resp s, P s -> P (k resp s).2) ->
  P st ->
  P ((let* r := customAxios_request env c in
      match r with
      | Resolved response => k response
      | Rejected error => handleError env error
      end) st).2.
Proof.
  intros Hreq Href Hlog Hk Hst. unfold bind.
  pose proof (Hreq c st Hst) as H1.
  destruct (customAxios_request env c st) as [[r | e] s1]; cbn [fst snd] in *.
  - apply Hk. exact H1.
  - apply handleError_invariant; assumption.
Qed.

Lemma get_invariant (P : State -> Prop) env u ps cfg st :
  (forall c s, P s -> P (customAxios_request env c s).2) ->
  (forall s, P s -> P (refreshToken env s).2) ->
  (forall l s, P s -> P (set_events l s)) ->
  (forall c s, P s -> P (set_cache c s)) ->
  P st -> P (get env u ps cfg st).2.
Proof.
  intros Hreq Href Hlog Hcache Hst.
  assert (Hget : forall key s, P s -> P (cache_get key s).2).
  { intros key s Hs. unfold cache_get, emit, bind, gets, modify, ret.
    destruct (cache s); cbn [fst snd]; [apply Hlog|]; exact Hs. }
  assert (Hset : forall key v s, P s -> P (cache_set key v s).2).
  { intros key v s Hs. unfold cache_set, emit, bind, gets, modify, ret.
    destruct (cache s); cbn [fst snd]; [apply Hcache, Hlog|]; exact Hs. }
  destruct (get_cases env u ps cfg st) as [(v0 & _ & _ & Hg) | (_ & Hg)]; rewrite Hg.
  - apply Hget, Hst.
  - unfold get_fetch, bind at 1, gets at 1. cbn [fst snd].
    apply verb_invariant; [exact Hreq | exact Href | exact Hlog | | apply Hget, Hst].
    intros resp s Hs. unfold bind, ret.
    pose proof (Hset (cacheKeyOf u (default (JObj []) ps)) (resp_data resp) s Hs) as H.
    destruct (cache_set _ _ s). exact H.
Qed.

Lemma sources_known_issue c st :
  sources_known st -> sources_known (customAxios_request_issue c st).2.
Proof.
  intros [Hreg Hcan].
  pose proof (customAxios_request_issue_spec c st) as H. unfold wp in H.
  destruct H as (_ & _ & _ & _ & _ & _ & _ & _ & Hn & Hp & Hc & _).
  destruct (requestCancellation (options st)).
  - split.
    + intros id s. rewrite Hp, Hn. intros Hl.
      apply lookup_insert_Some in Hl. destruct Hl as [[_ <-] | [_ Hl]]; [lia|].
      specialize (Hreg id s Hl). lia.
    + intros s. rewrite Hc, Hn. intros Hin. apply in_app_or in Hin.
      destruct Hin as [Hin | Hin]; [|specialize (Hcan s Hin); lia].
      unfold cancelled_by in Hin.
      destruct (cancelPrevious c) as [[|]|];
        try destruct (pendingRequests st !! getRequestId c) as [old|] eqn:Hold;
        simpl in Hin; try contradiction;
        destruct Hin as [<- | []]; specialize (Hreg _ _ Hold); lia.
  - split.
    + intros id s. rewrite Hp, Hn. apply Hreg.
    + intros s. rewrite Hc, Hn. apply Hcan.
Qed.

Lemma sources_known_frame st st' :
  pendingRequests st' = pendingRequests st -> canceled st' = canceled st ->
  nextSource st' = nextSource st -> sources_known st -> sources_known st'.
Proof.
  intros Hp Hc Hn [Hreg Hcan]. split.
  - intros id s. rewrite Hp, Hn. apply Hreg.
  - intros s. rewrite Hc, Hn. apply Hcan.
Qed.

Lemma sources_known_request env c st :
  sources_known st -> sources_known (customAxios_request env c st).2.
Proof.
  intros Hk. rewrite customAxios_request_split.
  pose proof (sources_known_issue c st Hk) as H1.
  destruct (customAxios_request_issue c st) as [[n c'] s1]. cbn [fst snd] in *.
  destruct (transport env n c') as [ms reply].
  pose proof (customAxios_request_resume_spec c' ms reply s1) as H2. unfold wp in H2.
  destruct H2 as (_ & _ & Hp & Hc & Hn & _).
  exact (sources_known_frame _ _ Hp Hc Hn H1).
Qed.

Lemma sources_known_refresh env st :
  sources_known st -> sources_known (refreshToken env st).2.
Proof.
  intros Hk. pose proof (refreshToken_frame env st) as H. unfold wp in H.
  destruct H as (_ & _ & _ & _ & Hp & Hc & Hn).
  exact (sources_known_frame _ _ Hp Hc Hn Hk).
Qed.

Lemma sources_known_construct o t : sources_known (construct o t).
Proof.
  split.
  - intros id s H. simpl in H. rewrite lookup_empty in H. discriminate.
  - intros s [].
Qed.

(** X13.  Cancel sources are never reused, so the pre-send stage never
    cancels the request it is about to send.  In a state where every
    source the registry holds or that has been cancelled was handed out
    before (a new instance is such a state, and every verb call leads to
    such a state again), the source attached to a request being issued is
    registered under its identity and is not among the cancelled ones. *)
Theorem presend_never_cancels_own_token env st :
  sources_known st ->
  (forall c, requestCancellation (options st) = true ->
     cancelToken (customAxios_request_issue c st).1.2 = Some (nextSource st) /\
     pendingRequests (customAxios_request_issue c st).2 !! getRequestId c
     = Some (nextSource st) /\
     ~ In (nextSource st) (canceled (customAxios_request_issue c st).2)) /\
  (forall u ps cfg, sources_known (get env u ps cfg st).2) /\
  (forall u d cfg, sources_known (post env u d cfg st).2) /\
  (forall u d cfg, sources_known (put env u d cfg st).2) /\
  (forall u cfg, sources_known (AxiosService.delete env u cfg st).2).
Proof.
  intros Hk.
  assert (Hverb : forall c,
    sources_known ((let* r := customAxios_request env c in
                    match r with
                    | Resolved response => ret (Resolved (handleSuccess response))
                    | Rejected error => handleError env error
                    end) st).2).
  { intros c. apply (verb_invariant sources_known).
    - intros c0 s. apply sources_known_request.
    - intros s. apply sources_known_refresh.
    - intros l s. apply sources_known_frame; reflexivity.
    - intros resp s Hs. exact Hs.
    - exact Hk. }
  split; [|split; [|split; [|split]]].
  - intros c Hrc.
    pose proof (customAxios_request_issue_spec c st) as H. unfold wp in H.
    rewrite Hrc in H.
    destruct H as (_ & _ & Htok & _ & _ & _ & _ & _ & _ & Hp & Hc & _).
    split; [exact Htok|]. split; [rewrite Hp; apply lookup_insert_eq|].
    rewrite Hc. intros Hin. apply in_app_or in Hin. destruct Hk as [Hreg Hcan].
    destruct Hin as [Hin | Hin]; [|specialize (Hcan _ Hin); lia].
    unfold cancelled_by in Hin.
    destruct (cancelPrevious c) as [[|]|];
      try destruct (pendingRequests st !! getRequestId c) as [old|] eqn:Hold;
      simpl in Hin; try contradiction;
      destruct Hin as [Heq | []]; specialize (Hreg _ _ Hold); lia.
  - intros u ps cfg. apply (get_invariant sources_known).
    + intros c0 s. apply sources_known_request.
    + intros s. apply sources_known_refresh.
    + intros l s. apply sources_known_frame; reflexivity.
    + intros c0 s. apply sources_known_frame; reflexivity.
    + exact Hk.
  - intros u d cfg. apply Hverb.
  - intros u d cfg. apply Hverb.
  - intros u cfg. apply Hverb.
Qed.

(** With cancellation disabled one pass through the axios instance leaves
    the registry and the cancel sources alone. *)
Lemma customAxios_request_registry_off env c st :
  requestCancellation (options st) = false ->
  options (customAxios_request env c st).2 = options st /\
  pendingRequests (customAxios_request env c st).2 = pendingRequests st /\
  canceled (customAxios_request env c st).2 = canceled st /\
  nextSource (customAxios_request env c st).2 = nextSource st.
Proof.
  intros Hoff. rewrite customAxios_request_split.
  pose proof (customAxios_request_issue_spec c st) as H1. unfold wp in H1.
  rewrite Hoff in H1.
  destruct (customAxios_request_issue c st) as [[n c'] s1]. cbn [fst snd] in *.
  destruct H1 as (_ & _ & _ & _ & (Ho & _) & _ & _ & _ & Hn & Hp & Hc & _).
  destruct (transport env n c') as [ms reply].
  pose proof (customAxios_request_resume_spec c' ms reply s1) as H2. unfold wp in H2.
  destruct H2 as ((Ho2 & _) & _ & Hp2 & Hc2 & Hn2 & _).
  repeat split; congruence.
Qed.

(** X14.  With request cancellation disabled the registry is out of use:
    no verb call registers, cancels or hands out anything, whatever its
    outcome. *)
Theorem cancellation_disabled_leaves_registry env st :
  requestCancellation (options st) = false ->
  let idle st' := pendingRequests st' = pendingRequests st /\
                  canceled st' = canceled st /\ nextSource st' = nextSource st in
  (forall u ps cfg, idle (get env u ps cfg st).2) /\
  (forall u d cfg, idle (post env u d cfg st).2) /\
  (forall u d cfg, idle (put env u d cfg st).2) /\
  (forall u cfg, idle (AxiosService.delete env u cfg st).2).
Proof.
  intros Hoff idle.
  set (P := fun s => options s = options st /\ idle s).
  assert (HP : P st) by (unfold P, idle; auto).
  assert (Hreq : forall c s, P s -> P (customAxios_request env c s).2).
  { intros c s (Ho & Hp & Hc & Hn).
    destruct (customAxios_request_registry_off env c s) as (Ho' & Hp' & Hc' & Hn').
    - rewrite Ho. exact Hoff.
    - unfold P, idle. repeat split; congruence. }
  assert (Href : forall s, P s -> P (refreshToken env s).2).
  { intros s (Ho & Hp & Hc & Hn).
    pose proof (refreshToken_frame env s) as H. unfold wp in H.
    destruct H as (_ & _ & _ & Ho' & Hp' & Hc' & Hn').
    unfold P, idle. repeat split; congruence. }
  assert (Hlog : forall l s, P s -> P (set_events l s)) by (intros l s H; exact H).
  assert (Hcache : forall c s, P s -> P (set_cache c s)) by (intros c s H; exact H).
  assert (Hverb : forall c,
    P ((let* r := customAxios_request env c in
        match r with
        | Resolved response => ret (Resolved (handleSuccess response))
        | Rejected error => handleError env error
        end) st).2).
  { intros c. apply (verb_invariant P); auto. }
  split; [|split; [|split]].
  - intros u ps cfg. exact (proj2 (get_invariant P env u ps cfg st Hreq Href Hlog Hcache HP)).
  - intros u d cfg. exact (proj2 (Hverb _)).
  - intros u d cfg. exact (proj2 (Hverb _)).
  - intros u cfg. exact (proj2 (Hverb _)).
Qed.


(** The token state across the error handler: it is what it was unless a
    refresh exchange was issued. *)
Lemma handleError_token env error st :
  wp (handleError env error) st (fun _ st' =>
    (refreshes st <= refreshes st')%nat /\
    (refreshes st' = refreshes st ->
     token st' = token st /\ tokenExpiration st' = tokenExpiration st)).
Proof.
  unfold handleError, console_error, emit.
  wp_go.
  all: try (unfold refreshes; wp_simpl; split; [lia | auto]).
  eapply wp_use; [apply refreshToken_spec|].
  intros o st1 (_ & _ & _ & _ & Hr & _).
  unfold refreshes in Hr; wp_simpl.
  wp_go.
  - eapply wp_use; [apply customAxios_request_spec|].
    intros o2 st2 (_ & _ & Hr2 & _).
    wp_go; unfold refreshes in *; wp_simpl; (split; [lia | intros; lia]).
  - unfold refreshes in *; wp_simpl. split; [lia | intros; lia].
Qed.

Lemma cache_set_token key v st :
  wp (cache_set key v) st (fun _ st' =>
    refreshes st' = refreshes st /\ token st' = token st /\
    tokenExpiration st' = tokenExpiration st).
Proof.
  unfold cache_set, emit. wp_go; unfold refreshes; wp_simpl; auto.
Qed.

Lemma verb_token env c st (k : Response -> M (Outcome JsValue)) :
  (forall resp s, wp (k resp) s (fun _ s' =>
     refreshes s' = refreshes s /\ token s' = token s /\
     tokenExpiration s' = tokenExpiration s)) ->
  wp (let* r := customAxios_request env c in
      match r with
      | Resolved response => k response
      | Rejected error => handleError env error
      end) st (fun _ st' =>
    refreshes st' = refreshes st ->
    token st' = token st /\ tokenExpiration st' = tokenExpiration st).
Proof.
  intros Hk. apply wp_bind.
  eapply wp_use; [apply customAxios_request_spec|].
  intros o s1 ((_ & _ & Ht & Hx) & _ & Hr & _).
  destruct o as [resp | error].
  - eapply wp_use; [apply Hk|]. intros o' s2 (Hr2 & Ht2 & Hx2) _.
    split; congruence.
  - eapply wp_use; [apply handleError_token|]. intros o' s2 (Hle & H) Heq.
    destruct H as [Ht2 Hx2]; [congruence|]. split; congruence.
Qed.

(** X16.  The token state is written by a refresh only: a verb call that
    issued no refresh exchange leaves the token and its expiry exactly as
    they were, whatever its outcome. *)
Theorem token_changes_only_by_refresh env st :
  let kept st' := refreshes st' = refreshes st ->
                  token st' = token st /\ tokenExpiration st' = tokenExpiration st in
  (forall u ps cfg, kept (get env u ps cfg st).2) /\
  (forall u d cfg, kept (post env u d cfg st).2) /\
  (forall u d cfg, kept (put env u d cfg st).2) /\
  (forall u cfg, kept (AxiosService.delete env u cfg st).2).
Proof.
  intros kept.
  assert (Hverb : forall c,
    wp (let* r := customAxios_request env c in
        match r with
        | Resolved response => ret (Resolved (handleSuccess response))
        | Rejected error => handleError env error
        end) st (fun _ st' => kept st')).
  { intros c. apply verb_token. intros resp s. wp_go. auto. }
  split; [|split; [|split]].
  - intros u ps cfg.
    set (key := cacheKeyOf u (default (JObj []) ps)).
    pose proof (cache_get_spec key st) as Hs. unfold wp in Hs.
    destruct Hs as ((_ & _ & Ht & Hx) & _ & _ & _ & _ & Hr & _).
    destruct (get_cases env u ps cfg st) as [(v0 & _ & _ & Hg) | (_ & Hg)];
      fold key in Hg; rewrite Hg.
    + intros _. auto.
    + assert (H : wp (get_fetch env u (default (JObj []) ps) cfg) (cache_get key st).2
        (fun _ st' => refreshes st' = refreshes (cache_get key st).2 ->
           token st' = token (cache_get key st).2 /\
           tokenExpiration st' = tokenExpiration (cache_get key st).2)).
      { unfold get_fetch. apply wp_bind, wp_gets. apply verb_token.
        intros resp s. wp_go. eapply wp_use; [apply cache_set_token|].
        intros [] s' H. wp_go. exact H. }
      unfold wp in H. rewrite Hr, Ht, Hx in H. exact H.
  - intros u d cfg. exact (Hverb _).
  - intros u d cfg. exact (Hverb _).
  - intros u cfg. exact (Hverb _).
Qed.



Lemma getToken_start_refreshes st :
  (refreshes st <= refreshes (getToken_start st).2 <= S (refreshes st))%nat.
Proof.
  assert (H : wp getToken_start st (fun _ st' =>
            (refreshes st <= refreshes st' <= S (refreshes st))%nat)).
  { unfold getToken_start. apply wp_bind. unfold wp at 1.
    rewrite tokenUnusable_reads. cbn [fst snd].
    wp_unfold. wp_go; unfold refreshes; wp_simpl; lia. }
  exact H.
Qed.

Lemma getToken_resume_refreshes answer st :
  refreshes (getToken_resume answer st).2 = refreshes st.
Proof.
  assert (H : wp (getToken_resume answer) st (fun _ st' => refreshes st' = refreshes st)).
  { unfold getToken_resume. wp_unfold. wp_go; unfold refreshes; wp_simpl; reflexivity. }
  exact H.
Qed.

Lemma step_refreshes env p a :
  (refreshes (step env p a).2
   <= refreshes p.2 + calls [a])%nat.
Proof.
  destruct p as [tasks st]. destruct a as [|i]; cbn [step fst snd].
  - pose proof (getToken_start_refreshes st) as H.
    destruct (getToken_start st) as [t st']. cbn [fst snd] in *.
    unfold calls. simpl. lia.
  - destruct (tasks !! i) as [[n | o]|]; cbn [fst snd]; unfold calls; simpl; try lia.
    pose proof (getToken_resume_refreshes (refreshEndpoint env n) st) as H.
    destruct (getToken_resume (refreshEndpoint env n) st) as [o st']. cbn [fst snd] in *.
    lia.
Qed.

Lemma fold_step_refreshes env acts : forall p,
  (refreshes (fold_left (step env) acts p).2 <= refreshes p.2 + calls acts)%nat.
Proof.
  induction acts as [|a acts IH]; intros p.
  - simpl. unfold calls. simpl. lia.
  - simpl. specialize (IH (step env p a)).
    pose proof (step_refreshes env p a) as H.
    unfold calls in *. simpl in *.
    destruct a; simpl in *; lia.
Qed.

(** X18.  However the callers of [getToken()] and the answers to their
    refresh exchanges are interleaved, the refresh endpoint is invoked at
    most once per call: delivering an answer never issues an exchange, and
    a call issues at most one. *)
Theorem schedule_refreshes_at_most_once_per_call env acts st :
  (refreshes (schedule env acts st).2 <= refreshes st + calls acts)%nat.
Proof.
  unfold schedule. exact (fold_step_refreshes env acts ([], st)).
Qed.

(** ** The further properties on concrete runs *)

(** The theorem of X7 on a run: an instance constructed without a cache. *)
Lemma get_without_cache_witness :
  (1 <= dispatches (get okServer "/data" (Some keyValue) noConfig
                      (construct cacheOff 0)).2)%nat /\
  cache (get okServer "/data" (Some keyValue) noConfig (construct cacheOff 0)).2 = None.
Proof.
  apply (get_without_cache okServer "/data" (Some keyValue) noConfig (construct cacheOff 0)).
  reflexivity.
Defined.


(** The theorem of X9 on a run: a token that is good for an hour. *)
Lemma getToken_returns_usable_token_witness :
  getToken okServer authenticated = (Resolved (Some "T1"), authenticated).
Proof.
  apply (getToken_returns_usable_token okServer authenticated "T1" 3600000).
  - reflexivity.
  - discriminate.
  - reflexivity.
  - reflexivity.
Defined.

(** The theorem of X10 on a run: a second call one second later. *)
Lemma getToken_reuses_granted_token_witness :
  (getToken twoGrants fresh).1 = Resolved (Some "T1") /\
  refreshes (getToken twoGrants fresh).2 = 1%nat /\
  getToken twoGrants (elapse 1000 (getToken twoGrants fresh).2).2
  = (Resolved (Some "T1"), (elapse 1000 (getToken twoGrants fresh).2).2).
Proof.
  apply (getToken_reuses_granted_token twoGrants fresh 10 "T1" 3600 1000).
  - reflexivity.
  - reflexivity.
  - discriminate.
  - reflexivity.
Defined.


(** The theorem of X12 on a run: the same [get] issued twice before any
    answer. *)
Lemma duplicate_in_flight_witness :
  cancelToken (customAxios_request_issue dataRequest fresh).1.2 = Some 0%nat /\
  canceled (customAxios_request_issue dataRequest
              (customAxios_request_issue dataRequest fresh).2).2
  = 0%nat :: canceled (customAxios_request_issue dataRequest fresh).2.
Proof.
  destruct (duplicate_in_flight dataRequest dataRequest fresh eq_refl eq_refl)
    as (H1 & _ & _ & H2 & _).
  split; [exact H1|]. apply H2. discriminate.
Defined.

(** The theorem of X13 on a run: a new instance. *)
Lemma presend_never_cancels_own_token_witness :
  cancelToken (customAxios_request_issue dataRequest fresh).1.2 = Some 0%nat /\
  sources_known (get okServer "/data" (Some keyValue) noConfig fresh).2.
Proof.
  destruct (presend_never_cancels_own_token okServer fresh
              (sources_known_construct noOverrides 0)) as (H1 & H2 & _).
  split.
  - exact (proj1 (H1 dataRequest eq_refl)).
  - exact (H2 "/data" (Some keyValue) noConfig).
Defined.

(** The theorem of X14 on a run: an instance constructed without
    cancellation. *)
Lemma cancellation_disabled_leaves_registry_witness :
  pendingRequests (get okServer "/data" (Some keyValue) noConfig
                     (construct cancellationOff 0)).2 = ∅ /\
  canceled (get okServer "/data" (Some keyValue) noConfig
              (construct cancellationOff 0)).2 = [] /\
  nextSource (get okServer "/data" (Some keyValue) noConfig
                (construct cancellationOff 0)).2 = 0%nat.
Proof.
  destruct (cancellation_disabled_leaves_registry okServer (construct cancellationOff 0)
              eq_refl) as (H & _).
  exact (H "/data" (Some keyValue) noConfig).
Defined.

